(** * Signaling relay: the RTC room registry and its WebSocket handler

    A shallow embedding of [internal/core/rtc/rtc_service.go]
    ([RTCService] and its five methods) and of the per-connection loop of
    [internal/infra/server/ws_routes.go] ([defaultHandler]), followed by
    the properties of the registry and of the broadcast.

    Conventions of the embedding:
    - a Go [map[string]T] is a [gmap string T];
    - a [*websocket.Conn] is [option Conn]: [None] is the nil pointer,
      [Some a] the connection object at address [a];
    - every method runs to completion under the table lock
      ([s.mu.Lock] / [s.mu.RLock]), so a method is one atomic step on the
      state and the mutex itself is not represented;
    - the network is a chronological list of events; what a write returns
      is given by a transport oracle, a parameter of the development;
    - the order in which [range] visits a Go map is unspecified: it is a
      parameter too, constrained only to visit every entry exactly once;
    - [fmt.Printf] and [slog] output is not represented. *)

From Stdlib Require Import ZArith.
From Stdlib.Strings Require Import String Byte.
From stdpp Require Import ssreflect base option list gmap strings fin_maps.

Local Open Scope string_scope.
Local Open Scope list_scope.

(** ** Data model *)

(** Address of a connection object. *)
Definition Conn := nat.

(** [type User struct { ID string; Conn *websocket.Conn }] *)
Record User := mkUser { User_ID : string; User_Conn : option Conn }.

(** [type Room struct { ID string; Users map[string]*User }] *)
Record Room := mkRoom { Room_ID : string; Users : gmap string User }.

(** [type RTCService struct { Rooms map[string]*Room; mu sync.RWMutex }].
    Every [*Room] of the table is allocated by [CreateRoom] and stored
    under one key only, so the table is kept by value. *)
Record RTCService := mkRTCService { Rooms : gmap string Room }.

(** Frame types of the websocket library. *)
Definition TextMessage : Z := 1.
Definition BinaryMessage : Z := 2.

(** ** Errors *)

(** One entry of [sendErrors]:
    ["failed to send message to user %s in room %s: %w"]. *)
Inductive send_error :=
| SendError (userID roomID : string) (cause : string).

(** The values built with [fmt.Errorf] in the registry, one constructor
    per format string, plus the error of a failed write. *)
Inductive error :=
| RoomAlreadyExists (roomID : string)
| RoomNotFound (roomID : string)
| ParticipantAlreadyInRoom (userID roomID : string)
| ParticipantNotInRoom (userID roomID : string)
| TransportError (cause : string)
| DeliveryFailure (sendErrors : list send_error).

Definition send_error_user (e : send_error) : string :=
  match e with SendError userID _ _ => userID end.

Definition send_error_cause (e : send_error) : string :=
  match e with SendError _ _ cause => cause end.

Definition send_error_Error (e : send_error) : string :=
  match e with
  | SendError userID roomID cause =>
      "failed to send message to user " +:+ userID +:+ " in room " +:+ roomID
        +:+ ": " +:+ cause
  end.

(** [%v] of a slice: the elements separated by spaces, in brackets. *)
Fixpoint join_with_space (l : list string) : string :=
  match l with
  | [] => ""
  | [x] => x
  | x :: rest => x +:+ " " +:+ join_with_space rest
  end.

(** [err.Error()] *)
Definition Error (e : error) : string :=
  match e with
  | RoomAlreadyExists roomID => "room " +:+ roomID +:+ " already exists"
  | RoomNotFound roomID => "room " +:+ roomID +:+ " not found"
  | ParticipantAlreadyInRoom userID roomID =>
      "user " +:+ userID +:+ " already in room " +:+ roomID
  | ParticipantNotInRoom userID roomID =>
      "user " +:+ userID +:+ " not in room " +:+ roomID
  | TransportError cause => cause
  | DeliveryFailure sendErrors =>
      "errors during SignalMessage broadcast: ["
        +:+ join_with_space (send_error_Error <$> sendErrors) +:+ "]"
  end.

(** ** The world: registry and network *)

Inductive Event :=
| Wrote (c : Conn) (messageType : Z) (data : list byte) (err : option string)
| Closed (c : Conn).

Record World := mkWorld { svc : RTCService; wire : list Event }.

(** What a call produces: a value, an error, or a run-time panic. *)
Inductive outcome (A : Type) :=
| Ok (a : A)
| Err (e : error)
| Panic.
Arguments Ok {A} a.
Arguments Err {A} e.
Arguments Panic {A}.

(** Stateful computations over the world. *)
Definition M (A : Type) : Type := World → outcome A * World.

Definition ret {A} (a : A) : M A := λ w, (Ok a, w).

Definition bind {A B} (m : M A) (k : A → M B) : M B :=
  λ w, match m w with
       | (Ok a, w') => k a w'
       | (Err e, w') => (Err e, w')
       | (Panic, w') => (Panic, w')
       end.

(** [if err := m; err != nil { ... }]: the error is handed to the caller's
    code as a value; only a panic escapes. *)
Definition catch {A B} (m : M A) (k : A + error → M B) : M B :=
  λ w, match m w with
       | (Ok a, w') => k (inl a) w'
       | (Err e, w') => k (inr e) w'
       | (Panic, w') => (Panic, w')
       end.

(** [defer f()]: [f] runs when the body returns or panics; its own result
    is dropped. *)
Definition defer {A B} (body : M A) (f : M B) : M A :=
  λ w, let '(r, w') := body w in (r, snd (f w')).

Notation "'let*' x ':=' m 'in' k" := (bind m (λ x, k))
  (at level 10, x name, m at level 100, k at level 200).

Definition new_events (before after : World) : list Event :=
  drop (length (wire before)) (wire after).

Definition event_target (ev : Event) : option Conn :=
  match ev with Wrote c _ _ _ => Some c | Closed _ => None end.

Definition event_failed (ev : Event) : option string :=
  match ev with Wrote _ _ _ err => err | Closed _ => None end.

(** ** The operations *)

(** What the registry takes from its environment: [transport] is what
    [WriteMessage] on a live connection returns, given everything that
    happened on the network so far ([None] is the nil error);
    [rangeUsers] is the order in which [range] visits a map of users. *)
Class Network := mkNetwork {
  transport : list Event → Conn → Z → list byte → option string;
  rangeUsers : gmap string User → list (string * User)
}.

Section Registry.

Context {N : Network}.

(** [func NewRTCService() *RTCService] *)
Definition NewRTCService : RTCService := mkRTCService ∅.

(** [func (s *RTCService) CreateRoom(roomID string)], returning a [*Room]
    and an error. *)
Definition CreateRoom (roomID : string) : M Room :=
  λ w,
    match Rooms (svc w) !! roomID with
    | Some _ => (Err (RoomAlreadyExists roomID), w)
    | None =>
        let room := mkRoom roomID ∅ in
        (Ok room,
         mkWorld (mkRTCService (<[roomID := room]> (Rooms (svc w)))) (wire w))
    end.

(** [func (s *RTCService) JoinRoom(roomID, userID string,
    conn *websocket.Conn)], returning a [*Room] and an error.  The
    returned pointer is the room of the table, so it shows the new user. *)
Definition JoinRoom (roomID userID : string) (conn : option Conn) : M Room :=
  λ w,
    match Rooms (svc w) !! roomID with
    | None => (Err (RoomNotFound roomID), w)
    | Some room =>
        match Users room !! userID with
        | Some _ => (Err (ParticipantAlreadyInRoom userID roomID), w)
        | None =>
            let user := mkUser userID conn in
            let room' := mkRoom (Room_ID room) (<[userID := user]> (Users room)) in
            (Ok room',
             mkWorld (mkRTCService (<[roomID := room']> (Rooms (svc w)))) (wire w))
        end
    end.

(** [func (s *RTCService) LeaveRoom(roomID, userID string) error] *)
Definition LeaveRoom (roomID userID : string) : M unit :=
  λ w,
    match Rooms (svc w) !! roomID with
    | None => (Err (RoomNotFound roomID), w)
    | Some room =>
        match Users room !! userID with
        | None => (Err (ParticipantNotInRoom userID roomID), w)
        | Some _ =>
            let room' := mkRoom (Room_ID room) (delete userID (Users room)) in
            (Ok (),
             mkWorld (mkRTCService (<[roomID := room']> (Rooms (svc w)))) (wire w))
        end
    end.

(** [func (s *RTCService) GetRoom(roomID string)], returning a [*Room]
    and an error. *)
Definition GetRoom (roomID : string) : M Room :=
  λ w,
    match Rooms (svc w) !! roomID with
    | None => (Err (RoomNotFound roomID), w)
    | Some room => (Ok room, w)
    end.

(** [func (c *Conn) WriteMessage(messageType int, data []byte) error].
    A call through the nil pointer panics. *)
Definition WriteMessage (c : option Conn) (messageType : Z) (data : list byte)
  : M unit :=
  λ w,
    match c with
    | None => (Panic, w)
    | Some a =>
        let err := transport (wire w) a messageType data in
        let w' := mkWorld (svc w) (wire w ++ [Wrote a messageType data err]) in
        match err with
        | None => (Ok (), w')
        | Some cause => (Err (TransportError cause), w')
        end
    end.

(** [func (c *Conn) Close() error] *)
Definition Close (c : option Conn) : M unit :=
  λ w,
    match c with
    | None => (Panic, w)
    | Some a => (Ok (), mkWorld (svc w) (wire w ++ [Closed a]))
    end.

(** The [for userID, user := range room.Users] loop of [SignalMessage],
    over the entries still to visit; [sendErrors] is the slice collected
    so far. *)
Fixpoint broadcast (roomID senderID : string) (message : list byte)
    (entries : list (string * User)) (sendErrors : list send_error)
  : M (list send_error) :=
  match entries with
  | [] => ret sendErrors
  | (userID, user) :: rest =>
      if decide (userID ≠ senderID) then
        if decide (User_Conn user ≠ None) then
          catch (WriteMessage (User_Conn user) TextMessage message)
            (λ r,
               match r with
               | inr err =>
                   broadcast roomID senderID message rest
                     (sendErrors ++ [SendError userID roomID (Error err)])
               | inl _ => broadcast roomID senderID message rest sendErrors
               end)
        else broadcast roomID senderID message rest sendErrors
      else broadcast roomID senderID message rest sendErrors
  end.

(** [func (s *RTCService) SignalMessage(roomID, senderID string,
    message []byte) error] *)
Definition SignalMessage (roomID senderID : string) (message : list byte)
  : M unit :=
  λ w,
    match Rooms (svc w) !! roomID with
    | None => (Err (RoomNotFound roomID), w)
    | Some room =>
        (let* sendErrors :=
           broadcast roomID senderID message (rangeUsers (Users room)) [] in
         if decide (0 < length sendErrors)
         then (λ w', (Err (DeliveryFailure sendErrors), w'))
         else ret ()) w
    end.

(** *** The connection handler *)

(** The body of the read loop of [defaultHandler] for one frame returned
    by [c.ReadMessage()]: the frame type [mt] only goes to the log line,
    the bytes go to [SignalMessage], whose error is logged and dropped. *)
Definition onFrame (roomID userID : string) (frame : Z * list byte) : M unit :=
  let '(mt, msg) := frame in
  catch (SignalMessage roomID userID msg) (λ _, ret ()).

(** [for { mt, msg, err := c.ReadMessage(); ... }] over the frames the
    client sends; when they are exhausted the read fails and the loop
    breaks. *)
Fixpoint readLoop (roomID userID : string) (inbound : list (Z * list byte))
  : M unit :=
  match inbound with
  | [] => ret ()
  | frame :: rest =>
      let* _ := onFrame roomID userID frame in
      readLoop roomID userID rest
  end.

(** [func defaultHandler(rtcService *rtc.RTCService) func(c *websocket.Conn)],
    with [roomID] and [userID] the two path parameters of [c]. *)
Definition defaultHandler (roomID userID : string) (c : Conn)
    (inbound : list (Z * list byte)) : M unit :=
  if decide (roomID = "" ∨ userID = "") then
    catch (WriteMessage (Some c) TextMessage
             (list_byte_of_string "RoomID and UserID are required."))
      (λ _, catch (Close (Some c)) (λ _, ret ()))
  else
    catch (JoinRoom roomID userID (Some c))
      (λ r,
         match r with
         | inr err =>
             catch (WriteMessage (Some c) TextMessage
                      (list_byte_of_string ("Error joining room: " +:+ Error err)))
               (λ _, catch (Close (Some c)) (λ _, ret ()))
         | inl _ =>
             defer (readLoop roomID userID inbound) (LeaveRoom roomID userID)
         end).

(** *** The REST join *)

(** [func JoinRoomHandler(rtcService *rtc.RTCService) fiber.Handler] of
    the REST package, for a request whose body parsed to [userID]; the
    value is the HTTP status.  The user is registered with a nil
    connection. *)
Definition JoinRoomHandler (roomID userID : string) : M Z :=
  if decide (roomID = "") then ret 400%Z
  else if decide (userID = "") then ret 400%Z
  else
    catch (JoinRoom roomID userID None)
      (λ r,
         match r with
         | inr err =>
             if decide (Error err = "room " +:+ roomID +:+ " not found")
             then ret 404%Z
             else ret 500%Z
         | inl _ => ret 200%Z
         end).

(** *** Sequences of calls *)

(** A call of one of the five methods of the registry. *)
Inductive Call :=
| CallCreateRoom (roomID : string)
| CallJoinRoom (roomID userID : string) (conn : option Conn)
| CallLeaveRoom (roomID userID : string)
| CallGetRoom (roomID : string)
| CallSignalMessage (roomID senderID : string) (message : list byte).

Definition discard {A} (m : M A) : M unit := let* _ := m in ret ().

Definition exec (c : Call) : M unit :=
  match c with
  | CallCreateRoom roomID => discard (CreateRoom roomID)
  | CallJoinRoom roomID userID conn => discard (JoinRoom roomID userID conn)
  | CallLeaveRoom roomID userID => LeaveRoom roomID userID
  | CallGetRoom roomID => discard (GetRoom roomID)
  | CallSignalMessage roomID senderID message =>
      SignalMessage roomID senderID message
  end.

(** The world after a sequence of calls, whatever each one returns. *)
Definition run (calls : list Call) (w : World) : World :=
  foldl (λ w c, snd (exec c w)) w calls.

(** *** Notions used by the statements *)

(** The two states of a participant with respect to a room. *)
Inductive participant_state := ABSENT | JOINED.

Definition state_of (w : World) (roomID userID : string) : participant_state :=
  match Rooms (svc w) !! roomID with
  | Some room =>
      match Users room !! userID with Some _ => JOINED | None => ABSENT end
  | None => ABSENT
  end.

(** Every room sits under its own identifier, and so does every user. *)
Definition keys_consistent (s : RTCService) : Prop :=
  ∀ roomID room, Rooms s !! roomID = Some room →
    Room_ID room = roomID ∧
    ∀ userID user, Users room !! userID = Some user → User_ID user = userID.

(** The entries a broadcast from [senderID] writes to: those under
    another key that hold a connection. *)
Definition recipients (senderID : string) (entries : list (string * User))
  : list (string * Conn) :=
  omap (λ '(userID, user),
          if decide (userID ≠ senderID)
          then (λ c, (userID, c)) <$> User_Conn user
          else None) entries.

(** The event of one write of the broadcast and the entry of
    [sendErrors] it leaves, given what the write returned. *)
Definition delivery (message : list byte) (target : string * Conn)
    (err : option string) : Event :=
  Wrote target.2 TextMessage message err.

Definition failure (roomID : string) (attempt : string * Conn * option string)
  : option send_error :=
  SendError attempt.1.1 roomID <$> attempt.2.

(** Frame type preservation by the relay: every frame the handler writes
    for an inbound frame of type [mt] has type [mt]. *)
Definition relay_preserves_frame_type : Prop :=
  ∀ w roomID userID mt msg c mt' data err,
    Wrote c mt' data err ∈ new_events w (snd (onFrame roomID userID (mt, msg) w)) →
    mt' = mt.

End Registry.

(** ** The REST handlers of the registry *)

(** HTTP status codes used by the handlers. *)
Definition StatusOK : Z := 200.
Definition StatusCreated : Z := 201.
Definition StatusBadRequest : Z := 400.
Definition StatusNotFound : Z := 404.
Definition StatusInternalServerError : Z := 500.

(** What [c.BodyParser(req)] makes of a request body: the parsed field, the
    error [fiber.ErrUnprocessableEntity] (no body of a known content type),
    or another error. *)
Inductive parsed (A : Type) :=
| Parsed (a : A)
| UnprocessableEntity
| ParseError.
Arguments Parsed {A} a.
Arguments UnprocessableEntity {A}.
Arguments ParseError {A}.

(** The JSON bodies the handlers send, with their status. *)
Inductive Response :=
| ErrorResponse (status : Z) (error : string)
| CreateRoomResponse (status : Z) (id : string) (users : nat)
| SuccessResponse (status : Z) (message : string)
| GetRoomResponse (status : Z) (id : string) (users : list string).

Definition status_of (r : Response) : Z :=
  match r with
  | ErrorResponse status _ => status
  | CreateRoomResponse status _ _ => status
  | SuccessResponse status _ => status
  | GetRoomResponse status _ _ => status
  end.

Section Handlers.

Context {N : Network}.

(** [func CreateRoomHandler(rtcService *rtc.RTCService) fiber.Handler];
    [newUUID] is what [uuid.New().String()] returns when it is called. *)
Definition CreateRoomHandler (newUUID : string) (body : parsed string)
  : M Response :=
  match body with
  | ParseError => ret (ErrorResponse StatusBadRequest "Cannot parse JSON")
  | _ =>
      let requested := match body with Parsed id => id | _ => "" end in
      let roomID := if decide (requested = "") then newUUID else requested in
      catch (CreateRoom roomID)
        (λ r,
           match r with
           | inr err => ret (ErrorResponse StatusInternalServerError (Error err))
           | inl room =>
               ret (CreateRoomResponse StatusCreated (Room_ID room)
                      (size (Users room)))
           end)
  end.

(** [func LeaveRoomHandler(rtcService *rtc.RTCService) fiber.Handler] *)
Definition LeaveRoomHandler (roomID : string) (body : parsed string)
  : M Response :=
  if decide (roomID = "") then
    ret (ErrorResponse StatusBadRequest "Room ID is required")
  else
    match body with
    | Parsed userID =>
        if decide (userID = "") then
          ret (ErrorResponse StatusBadRequest "User ID is required")
        else
          catch (LeaveRoom roomID userID)
            (λ r,
               match r with
               | inr err =>
                   if decide (Error err = "room " +:+ roomID +:+ " not found"
                              ∨ Error err
                                = "user " +:+ userID +:+ " not in room " +:+ roomID)
                   then ret (ErrorResponse StatusNotFound (Error err))
                   else ret (ErrorResponse StatusInternalServerError (Error err))
               | inl _ =>
                   ret (SuccessResponse StatusOK
                          ("User " +:+ userID +:+ " left room " +:+ roomID))
               end)
    | _ => ret (ErrorResponse StatusBadRequest "Cannot parse JSON")
    end.

(** [func GetRoomHandler(rtcService *rtc.RTCService) fiber.Handler]; the
    identifiers are collected by a [range] over the users of the room (for
    an empty room the slice stays nil, which is the empty list here). *)
Definition GetRoomHandler (roomID : string) : M Response :=
  if decide (roomID = "") then
    ret (ErrorResponse StatusBadRequest "Room ID is required")
  else
    catch (GetRoom roomID)
      (λ r,
         match r with
         | inr err =>
             if decide (Error err = "room " +:+ roomID +:+ " not found")
             then ret (ErrorResponse StatusNotFound (Error err))
             else ret (ErrorResponse StatusInternalServerError (Error err))
         | inl room =>
             let userIDs := (rangeUsers (Users room)).*1 in
             ret (GetRoomResponse StatusOK (Room_ID room) userIDs)
         end).



End Handlers.

(** ** The earlier WebSocket routes: one set of connections per user *)

(** The first revision of [ws_routes.go] keeps
    [clients map[string]map[*websocket.Conn]struct{}], a set of connections
    per user identifier.  The connections stored are the live connections
    the handler is called with, so the sets hold addresses. *)

Section Clients.

Context {N : Network}.

(** The orders in which [range] visits the table of clients and a set of
    connections. *)
Variable rangeClients : gmap string (gset Conn) → list (string * gset Conn).
Variable rangeSet : gset Conn → list Conn.

(** The text of [fmt.Sprintf("User %s joined: %s", userID, conn)]. *)
Variable joinedNotice : string → Conn → list byte.

(** [func registerConn(userID string, conn *websocket.Conn)]: the table
    after the call, and the message of the [Broadcast] it starts in a new
    goroutine. *)
Definition registerConn (userID : string) (conn : Conn)
    (clients : gmap string (gset Conn))
  : gmap string (gset Conn) * list byte :=
  let set := default ∅ (clients !! userID) in
  (<[userID := {[conn]} ∪ set]> clients, joinedNotice userID conn).

(** [func unregisterConn(userID string, conn *websocket.Conn)] *)
Definition unregisterConn (userID : string) (conn : Conn)
    (clients : gmap string (gset Conn)) : gmap string (gset Conn) :=
  match clients !! userID with
  | Some set =>
      let set' := set ∖ {[conn]} in
      if decide (size set' = 0) then delete userID clients
      else <[userID := set']> clients
  | None => clients
  end.

(** [for conn := range set { conn.WriteMessage(websocket.TextMessage,
    message) }], a failed write only being logged. *)
Fixpoint writeEach (conns : list Conn) (message : list byte) : M unit :=
  match conns with
  | [] => ret ()
  | conn :: rest =>
      catch (WriteMessage (Some conn) TextMessage message)
        (λ _, writeEach rest message)
  end.

(** [func Broadcast(message []byte)] *)
Fixpoint broadcastClients (entries : list (string * gset Conn))
    (message : list byte) : M unit :=
  match entries with
  | [] => ret ()
  | (uid, set) :: rest =>
      let* _ := writeEach (rangeSet set) message in
      broadcastClients rest message
  end.

Definition Broadcast (clients : gmap string (gset Conn)) (message : list byte)
  : M unit :=
  broadcastClients (rangeClients clients) message.

(** [func SendToUser(userID string, message []byte) error]; the value is
    the text of the error, [None] for nil. *)
Definition SendToUser (clients : gmap string (gset Conn)) (userID : string)
    (message : list byte) : World → option string * World :=
  λ w,
    match clients !! userID with
    | Some set =>
        if decide (size set = 0)
        then (Some ("user " +:+ userID +:+ " not connected"), w)
        else (None, (writeEach (rangeSet set) message w).2)
    | None => (Some ("user " +:+ userID +:+ " not connected"), w)
    end.

(** No user of the table is left with an empty set of connections. *)
Definition no_empty_set (clients : gmap string (gset Conn)) : Prop :=
  ∀ userID set, clients !! userID = Some set → set ≠ ∅.

End Clients.

(** ** Concrete runs *)

(** A network on which every write succeeds, and one on which the
    connection at address 2 is broken; both visit a map in the order of
    [map_to_list]. *)
Definition reliable : Network := mkNetwork (λ _ _ _ _, None) map_to_list.

Definition broken_2 : Network :=
  mkNetwork (λ _ c _ _, if decide (c = 2) then Some "broken pipe" else None)
    map_to_list.

Definition hello : list byte := list_byte_of_string "hello".

Definition fresh : World := mkWorld NewRTCService [].

(** Room [r] with [a], [b], [c] on the connections 1, 2, 3. *)
Definition room_abc : Room :=
  mkRoom "r"
    (<["c" := mkUser "c" (Some 3)]>
       (<["b" := mkUser "b" (Some 2)]> {["a" := mkUser "a" (Some 1)]})).

Definition world_abc : World :=
  run (N := reliable)
    [CallCreateRoom "r"; CallJoinRoom "r" "a" (Some 1);
     CallJoinRoom "r" "b" (Some 2); CallJoinRoom "r" "c" (Some 3)]
    fresh.

(** Room [r] with only [a]. *)
Definition room_a : Room := mkRoom "r" {["a" := mkUser "a" (Some 1)]}.

Definition world_a : World :=
  run (N := reliable)
    [CallCreateRoom "r"; CallJoinRoom "r" "a" (Some 1)] fresh.

(** Room [r] with [a] on connection 1 and [b] joined through the REST
    handler, hence without a connection. *)
Definition room_rest : Room :=
  mkRoom "r"
    (<["b" := mkUser "b" None]> {["a" := mkUser "a" (Some 1)]}).

Definition world_rest : World :=
  (JoinRoomHandler "r" "b"
     (run (N := reliable)
        [CallCreateRoom "r"; CallJoinRoom "r" "a" (Some 1)] fresh)).2.

(** Room [r] with only [b], on connection 2, before [a] connects. *)
Definition world_b : World :=
  run (N := reliable)
    [CallCreateRoom "r"; CallJoinRoom "r" "b" (Some 2)] fresh.

(** Room [r] just created. *)
Definition world_r : World :=
  run (N := reliable) [CallCreateRoom "r"] fresh.


(** Rooms [r1], where [p] sits on connection 1, and [r2], empty. *)
Definition world_two : World :=
  run (N := reliable)
    [CallCreateRoom "r1"; CallJoinRoom "r1" "p" (Some 1); CallCreateRoom "r2"]
    fresh.

(** A text frame followed by a binary frame. *)
Definition frames : list (Z * list byte) :=
  [(TextMessage, hello); (BinaryMessage, [x01; x02])].

(** A table of clients where [a] has the connection 1. *)
Definition clients_a : gmap string (gset Conn) := {["a" := {[1]}]}.

Definition notice_of (userID : string) (conn : Conn) : list byte :=
  list_byte_of_string ("User " +:+ userID +:+ " joined").

(** ** Properties *)

(** Projections out of explicit records, without unfolding the maps. *)
Ltac proj_simpl :=
  cbn [svc wire Rooms Room_ID Users User_ID User_Conn fst snd] in *.

Section Properties.

Context {N : Network}.

(** [range] visits every entry of the map exactly once. *)
Hypothesis rangeUsers_perm : ∀ m, rangeUsers m ≡ₚ map_to_list m.

(** *** The broadcast loop *)

Lemma recipients_cons senderID userID user rest :
  recipients senderID ((userID, user) :: rest) =
    match decide (userID ≠ senderID), User_Conn user with
    | left _, Some c => (userID, c) :: recipients senderID rest
    | _, _ => recipients senderID rest
    end.
Proof.
  rw /recipients /=.
  destruct (decide (userID ≠ senderID)); [|done].
  by destruct (User_Conn user).
Qed.

Lemma broadcast_spec roomID senderID message entries :
  ∀ sendErrors w,
    ∃ outs : list (option string),
      length outs = length (recipients senderID entries) ∧
      broadcast roomID senderID message entries sendErrors w =
        (Ok (sendErrors ++
             omap (failure roomID) (zip (recipients senderID entries) outs)),
         mkWorld (svc w)
           (wire w ++
            zip_with (delivery message) (recipients senderID entries) outs)).
Proof.
  induction entries as [|[userID user] rest IH]; intros sendErrors w.
  - exists []. destruct w. by rw /= !app_nil_r.
  - rw recipients_cons /=.
    destruct (decide (userID ≠ senderID)) as [Hsender|Hsender]; last first.
    { destruct (IH sendErrors w) as (outs & Hlen & ->). by exists outs. }
    destruct (User_Conn user) as [c|] eqn:Hconn; last first.
    { destruct (decide (None ≠ None)) as [?|_]; [done|].
      destruct (IH sendErrors w) as (outs & Hlen & ->). by exists outs. }
    destruct (decide (Some c ≠ None)) as [_|[]]; [|done].
    rw /catch /WriteMessage /=.
    destruct (transport (wire w) c TextMessage message) as [cause|] eqn:Hout.
    + simpl.
      destruct (IH (sendErrors ++ [SendError userID roomID cause])
                  (mkWorld (svc w)
                     (wire w ++ [Wrote c TextMessage message (Some cause)])))
        as (outs & Hlen & ->).
      exists (Some cause :: outs). split; [by rw /= Hlen|].
      by rw /= -!app_assoc.
    + simpl.
      destruct (IH sendErrors
                  (mkWorld (svc w)
                     (wire w ++ [Wrote c TextMessage message None])))
        as (outs & Hlen & ->).
      exists (None :: outs). split; [by rw /= Hlen|].
      by rw /= -!app_assoc.
Qed.

Lemma elem_of_recipients senderID (m : gmap string User) userID c :
  (userID, c) ∈ recipients senderID (map_to_list m) ↔
    userID ≠ senderID ∧
    ∃ user, m !! userID = Some user ∧ User_Conn user = Some c.
Proof.
  rw /recipients list_elem_of_omap. split.
  - intros ([u user] & Hin & Hf). apply elem_of_map_to_list in Hin.
    destruct (decide (u ≠ senderID)) as [Hne|]; [|done].
    destruct (User_Conn user) as [c'|] eqn:Hc; simplify_eq/=. eauto.
  - intros (Hne & user & Hm & Hc). exists (userID, user).
    split; [by apply elem_of_map_to_list|].
    destruct (decide (userID ≠ senderID)); [|done]. by rw Hc.
Qed.

Lemma recipients_range senderID m :
  recipients senderID (rangeUsers m) ≡ₚ recipients senderID (map_to_list m).
Proof. rw /recipients. by rw (rangeUsers_perm m). Qed.

(** *** The events and the errors of a pass over given targets *)

Lemma elem_of_deliveries message (targets : list (string * Conn)) :
  ∀ (outs : list (option string)) ev,
    ev ∈ zip_with (delivery message) targets outs →
    ∃ userID c err,
      ev = Wrote c TextMessage message err ∧ (userID, c) ∈ targets.
Proof.
  induction targets as [|[u c] targets IH]; intros [|e outs] ev Hin;
    simpl in Hin; try by apply not_elem_of_nil in Hin.
  apply elem_of_cons in Hin as [->|Hin].
  - exists u, c, e. split; [done|]. apply list_elem_of_here.
  - destruct (IH _ _ Hin) as (u' & c' & e' & -> & Hin').
    exists u', c', e'. split; [done|]. by apply list_elem_of_further.
Qed.

Lemma target_delivered message (targets : list (string * Conn)) :
  ∀ (outs : list (option string)) userID c,
    length outs = length targets →
    (userID, c) ∈ targets →
    ∃ err, Wrote c TextMessage message err
             ∈ zip_with (delivery message) targets outs.
Proof.
  induction targets as [|[u c'] targets IH]; intros [|e outs] userID c Hlen Hin;
    simplify_eq/=; try by apply not_elem_of_nil in Hin.
  apply elem_of_cons in Hin as [Heq|Hin].
  - simplify_eq. exists e. apply list_elem_of_here.
  - destruct (IH outs _ _ Hlen Hin) as [err Herr].
    exists err. by apply list_elem_of_further.
Qed.

Lemma deliveries_targets message (targets : list (string * Conn)) :
  ∀ outs : list (option string),
    length outs = length targets →
    omap event_target (zip_with (delivery message) targets outs) = targets.*2.
Proof.
  induction targets as [|[u c] targets IH]; intros [|e outs] Hlen;
    simplify_eq/=; [done|].
  by rw (IH outs Hlen).
Qed.

Lemma failures_causes roomID message (targets : list (string * Conn)) :
  ∀ outs : list (option string),
    send_error_cause <$> omap (failure roomID) (zip targets outs) =
      omap event_failed (zip_with (delivery message) targets outs).
Proof.
  induction targets as [|[u c] targets IH]; intros [|[cause|] outs];
    simpl; try done.
  f_equal. apply IH.
Qed.

Lemma elem_of_failures roomID message (targets : list (string * Conn)) :
  ∀ (outs : list (option string)) e,
    e ∈ omap (failure roomID) (zip targets outs) →
    ∃ userID c cause,
      e = SendError userID roomID cause ∧
      (userID, c) ∈ targets ∧
      Wrote c TextMessage message (Some cause)
        ∈ zip_with (delivery message) targets outs.
Proof.
  induction targets as [|[u c] targets IH]; intros [|out outs] e Hin;
    simpl in Hin; try by apply not_elem_of_nil in Hin.
  destruct out as [cause|]; simpl in Hin.
  - apply elem_of_cons in Hin as [->|Hin].
    + exists u, c, cause. split_and!; [done|apply list_elem_of_here..].
    + destruct (IH _ _ Hin) as (u' & c' & cause' & -> & Hin' & Hev).
      exists u', c', cause'. split_and!; [done|by apply list_elem_of_further..].
  - destruct (IH _ _ Hin) as (u' & c' & cause' & -> & Hin' & Hev).
    exists u', c', cause'. split_and!; [done|by apply list_elem_of_further..].
Qed.

Lemma failed_delivery_recorded roomID message (targets : list (string * Conn)) :
  ∀ (outs : list (option string)) c cause,
    Wrote c TextMessage message (Some cause)
      ∈ zip_with (delivery message) targets outs →
    ∃ userID,
      (userID, c) ∈ targets ∧
      SendError userID roomID cause ∈ omap (failure roomID) (zip targets outs).
Proof.
  induction targets as [|[u c'] targets IH]; intros [|out outs] c cause Hin;
    simpl in Hin; try by apply not_elem_of_nil in Hin.
  apply elem_of_cons in Hin as [Heq|Hin].
  - rw /delivery /= in Heq. simplify_eq. exists u.
    split; apply list_elem_of_here.
  - destruct (IH _ _ _ Hin) as (u' & Hin' & Herr).
    exists u'. split; [by apply list_elem_of_further|].
    destruct out; simpl; [by apply list_elem_of_further|done].
Qed.

(** *** [SignalMessage] on a registered room *)

Lemma SignalMessage_registered roomID senderID message w room :
  Rooms (svc w) !! roomID = Some room →
  ∃ (targets : list (string * Conn)) (outs : list (option string)),
    targets ≡ₚ recipients senderID (map_to_list (Users room)) ∧
    length outs = length targets ∧
    SignalMessage roomID senderID message w =
      (match omap (failure roomID) (zip targets outs) with
       | [] => Ok ()
       | sendErrors => Err (DeliveryFailure sendErrors)
       end,
       mkWorld (svc w)
         (wire w ++ zip_with (delivery message) targets outs)).
Proof.
  intros Hroom. rw /SignalMessage Hroom /bind.
  destruct (broadcast_spec roomID senderID message
              (rangeUsers (Users room)) [] w) as (outs & Hlen & ->).
  exists (recipients senderID (rangeUsers (Users room))), outs.
  split; [apply recipients_range|]. split; [done|].
  simpl. by destruct (omap _ _) as [|e errs].
Qed.

Lemma SignalMessage_svc roomID senderID message w :
  svc (SignalMessage roomID senderID message w).2 = svc w.
Proof.
  rw /SignalMessage. destruct (Rooms (svc w) !! roomID) as [room|]; [|done].
  rw /bind.
  destruct (broadcast_spec roomID senderID message
              (rangeUsers (Users room)) [] w) as (outs & _ & ->).
  simpl. by case_decide.
Qed.

Lemma SignalMessage_unregistered roomID senderID message w :
  Rooms (svc w) !! roomID = None →
  SignalMessage roomID senderID message w = (Err (RoomNotFound roomID), w).
Proof. intros Hroom. by rw /SignalMessage Hroom. Qed.

Lemma new_events_app w evs :
  new_events w (mkWorld (svc w) (wire w ++ evs)) = evs.
Proof. by rw /new_events /= drop_app_length. Qed.

Lemma recipient_of_room senderID room (targets : list (string * Conn)) userID c :
  targets ≡ₚ recipients senderID (map_to_list (Users room)) →
  (userID, c) ∈ targets ↔
    userID ≠ senderID ∧
    ∃ user, Users room !! userID = Some user ∧ User_Conn user = Some c.
Proof. intros ->. apply elem_of_recipients. Qed.

(** *** Broadcast: who is written to *)

(** C1 — [SignalMessage] checks only that the room is registered: on an
    unregistered room it returns RoomNotFound and does nothing; on a
    registered room, whether or not [senderID] is a member, it writes
    the payload, unchanged, to the connection of every participant
    stored under another identifier (once per such participant), writes
    nothing else, and in particular nothing for the entry of [senderID]:
    when no other participant holds the sender's connection, that
    connection is not written to. *)
Theorem SignalMessage_delivers_to_all_but_sender w roomID senderID message :
  (Rooms (svc w) !! roomID = None →
     SignalMessage roomID senderID message w = (Err (RoomNotFound roomID), w)) ∧
  (∀ room, Rooms (svc w) !! roomID = Some room →
     ∃ res w',
       SignalMessage roomID senderID message w = (res, w') ∧
       (res = Ok () ∨ ∃ sendErrors, res = Err (DeliveryFailure sendErrors)) ∧
       wire w' = wire w ++ new_events w w' ∧
       (∀ userID user c,
          Users room !! userID = Some user →
          userID ≠ senderID →
          User_Conn user = Some c →
          ∃ err, Wrote c TextMessage message err ∈ new_events w w') ∧
       (∀ ev, ev ∈ new_events w w' →
          ∃ userID user c err,
            ev = Wrote c TextMessage message err ∧
            Users room !! userID = Some user ∧
            userID ≠ senderID ∧
            User_Conn user = Some c) ∧
       omap event_target (new_events w w')
         ≡ₚ (recipients senderID (map_to_list (Users room))).*2 ∧
       (∀ sender c,
          Users room !! senderID = Some sender →
          User_Conn sender = Some c →
          (∀ userID user,
             Users room !! userID = Some user →
             User_Conn user = Some c → userID = senderID) →
          ∀ ev, ev ∈ new_events w w' → event_target ev ≠ Some c)).
Proof.
  split; [apply SignalMessage_unregistered|].
  intros room Hroom.
  destruct (SignalMessage_registered roomID senderID message w room Hroom)
    as (targets & outs & Hperm & Hlen & ->).
  eexists _, _. split; [done|]. rw new_events_app.
  assert (∀ ev, ev ∈ zip_with (delivery message) targets outs →
            ∃ userID user c err,
              ev = Wrote c TextMessage message err ∧
              Users room !! userID = Some user ∧
              userID ≠ senderID ∧ User_Conn user = Some c) as Honly.
  { intros ev Hev.
    destruct (elem_of_deliveries _ _ _ _ Hev) as (u & c & err & -> & Hin).
    apply (recipient_of_room senderID room) in Hin as (Hne & user & Hu & Hc);
      [|done].
    by exists u, user, c, err. }
  split_and!.
  - destruct (omap _ _); eauto.
  - done.
  - intros userID user c Hu Hne Hc.
    apply (target_delivered message targets outs userID c); [done|].
    apply (recipient_of_room senderID room); eauto.
  - done.
  - rw (deliveries_targets message targets outs Hlen). by rw Hperm.
  - intros sender c Hs Hsc Hexcl ev Hev Htarget.
    destruct (Honly ev Hev) as (u & user & c' & err & -> & Hu & Hne & Hc).
    simpl in Htarget. simplify_eq. by apply Hne, (Hexcl u user).
Qed.

(** *** Broadcast: failures *)

(** C2 — On a registered room, a write that fails does not stop the
    pass: every participant other than the sender that holds a
    connection is still written to.  If no write failed the call
    succeeds; otherwise it returns one DeliveryFailure whose entries are
    exactly the failed writes, in order, each naming its participant.
    When the sender is the only participant nothing is written and the
    call succeeds. *)
Theorem SignalMessage_partial_failure w roomID senderID message room :
  Rooms (svc w) !! roomID = Some room →
  ∃ res w',
    SignalMessage roomID senderID message w = (res, w') ∧
    (∀ userID user c,
       Users room !! userID = Some user →
       userID ≠ senderID →
       User_Conn user = Some c →
       ∃ err, Wrote c TextMessage message err ∈ new_events w w') ∧
    (omap event_failed (new_events w w') = [] → res = Ok ()) ∧
    (omap event_failed (new_events w w') ≠ [] →
       ∃ sendErrors,
         res = Err (DeliveryFailure sendErrors) ∧
         send_error_cause <$> sendErrors
           = omap event_failed (new_events w w') ∧
         (∀ e, e ∈ sendErrors →
            ∃ userID user c cause,
              e = SendError userID roomID cause ∧
              Users room !! userID = Some user ∧
              userID ≠ senderID ∧
              User_Conn user = Some c ∧
              Wrote c TextMessage message (Some cause) ∈ new_events w w') ∧
         (∀ c cause,
            Wrote c TextMessage message (Some cause) ∈ new_events w w' →
            ∃ userID user,
              Users room !! userID = Some user ∧
              userID ≠ senderID ∧
              User_Conn user = Some c ∧
              SendError userID roomID cause ∈ sendErrors)) ∧
    ((∀ userID, is_Some (Users room !! userID) → userID = senderID) →
       res = Ok () ∧ w' = w).
Proof.
  intros Hroom.
  destruct (SignalMessage_registered roomID senderID message w room Hroom)
    as (targets & outs & Hperm & Hlen & ->).
  eexists _, _. split; [done|]. rw new_events_app.
  pose proof (failures_causes roomID message targets outs) as Hcauses.
  split_and!.
  - intros userID user c Hu Hne Hc.
    apply (target_delivered message targets outs userID c); [done|].
    apply (recipient_of_room senderID room); eauto.
  - intros Hnone. rw -Hcauses in Hnone.
    by destruct (omap (failure roomID) _).
  - intros Hsome. rw -Hcauses in Hsome.
    destruct (omap (failure roomID) (zip targets outs))
      as [|e sendErrors] eqn:Herrs; [done|].
    exists (e :: sendErrors). rw -Herrs. split_and!; [done|by rw Herrs|..].
    + intros e' He'.
      destruct (elem_of_failures roomID message _ _ _ He')
        as (u & c & cause & -> & Hin & Hev).
      apply (recipient_of_room senderID room) in Hin
        as (Hne & user & Hu & Hc); [|done].
      by exists u, user, c, cause.
    + intros c cause Hev.
      destruct (failed_delivery_recorded roomID message _ _ _ _ Hev)
        as (u & Hin & He).
      apply (recipient_of_room senderID room) in Hin
        as (Hne & user & Hu & Hc); [|done].
      by exists u, user.
  - intros Hsole.
    assert (targets = []) as ->.
    { destruct targets as [|[u c] targets]; [done|]. exfalso.
      assert ((u, c) ∈ (u, c) :: targets) as Hin by apply list_elem_of_here.
      apply (recipient_of_room senderID room) in Hin
        as (Hne & user & Hu & Hc); [|done].
      apply Hne, Hsole. by exists user. }
    destruct w. by rw /= app_nil_r.
Qed.

(** *** Broadcast: participants without a connection *)

(** C9 — On a registered room [SignalMessage] never panics; the writes
    it makes are as many as the participants other than the sender that
    hold a connection, so a participant whose connection is nil is
    skipped; every recorded failure names a participant that holds a
    connection; and when every participant other than the sender has a
    nil connection, nothing is written and the call succeeds. *)
Theorem SignalMessage_skips_nil_handles w roomID senderID message room :
  Rooms (svc w) !! roomID = Some room →
  ∃ res w',
    SignalMessage roomID senderID message w = (res, w') ∧
    res ≠ Panic ∧
    length (new_events w w')
      = length (recipients senderID (map_to_list (Users room))) ∧
    (∀ ev, ev ∈ new_events w w' →
       ∃ userID user c err,
         ev = Wrote c TextMessage message err ∧
         Users room !! userID = Some user ∧
         userID ≠ senderID ∧
         User_Conn user = Some c) ∧
    (∀ sendErrors e,
       res = Err (DeliveryFailure sendErrors) →
       e ∈ sendErrors →
       ∃ user c,
         Users room !! send_error_user e = Some user ∧
         User_Conn user = Some c) ∧
    ((∀ userID user,
        Users room !! userID = Some user →
        userID ≠ senderID →
        User_Conn user = None) →
     res = Ok () ∧ w' = w).
Proof.
  intros Hroom.
  destruct (SignalMessage_registered roomID senderID message w room Hroom)
    as (targets & outs & Hperm & Hlen & ->).
  eexists _, _. split; [done|]. rw new_events_app.
  split_and!.
  - by destruct (omap _ _).
  - by rw length_zip_with Hlen Nat.min_id Hperm.
  - intros ev Hev.
    destruct (elem_of_deliveries _ _ _ _ Hev) as (u & c & err & -> & Hin).
    apply (recipient_of_room senderID room) in Hin as (Hne & user & Hu & Hc);
      [|done].
    by exists u, user, c, err.
  - intros sendErrors e Hres He.
    destruct (omap (failure roomID) (zip targets outs))
      as [|e0 errs] eqn:Herrs; simplify_eq.
    rw -Herrs in He.
    destruct (elem_of_failures roomID message _ _ _ He)
      as (u & c & cause & -> & Hin & _).
    apply (recipient_of_room senderID room) in Hin as (_ & user & Hu & Hc);
      [|done].
    by exists user, c.
  - intros Hnil.
    assert (targets = []) as ->.
    { destruct targets as [|[u c] targets]; [done|]. exfalso.
      assert ((u, c) ∈ (u, c) :: targets) as Hin by apply list_elem_of_here.
      apply (recipient_of_room senderID room) in Hin
        as (Hne & user & Hu & Hc); [|done].
      by rw (Hnil u user Hu Hne) in Hc. }
    destruct w. by rw /= app_nil_r.
Qed.

(** *** Broadcast: the registry is only read *)

(** C8 — [SignalMessage] leaves the registry as it found it, whatever
    the room, the sender and the payload and whatever the writes return:
    the same rooms, the same participants, the same connections. *)
Theorem SignalMessage_preserves_registry w roomID senderID message :
  svc (SignalMessage roomID senderID message w).2 = svc w.
Proof. apply SignalMessage_svc. Qed.

(** *** Room life cycle *)

(** C5 — On a room identifier that is not registered, [CreateRoom r]
    succeeds: it returns the room [r] with no participants, registers it
    under [r] and changes nothing else, and [GetRoom r] then returns it.
    Whatever the first [CreateRoom r] returns, a second one returns
    RoomAlreadyExists and leaves the whole world as it was; a room returned
    by [CreateRoom r] has no participants and is the one registered under
    [r]; and on any registered room, whatever its participants,
    [CreateRoom] fails without changing anything, the room included. *)
Theorem CreateRoom_twice w roomID :
  ∃ res1 w1,
    CreateRoom roomID w = (res1, w1) ∧
    CreateRoom roomID w1 = (Err (RoomAlreadyExists roomID), w1) ∧
    (Rooms (svc w) !! roomID = None →
       res1 = Ok (mkRoom roomID ∅) ∧
       w1 = mkWorld
              (mkRTCService (<[roomID := mkRoom roomID ∅]> (Rooms (svc w))))
              (wire w) ∧
       GetRoom roomID w1 = (Ok (mkRoom roomID ∅), w1)) ∧
    (∀ room, res1 = Ok room →
       Users room = ∅ ∧
       Room_ID room = roomID ∧
       Rooms (svc w1) !! roomID = Some room) ∧
    (∀ room, Rooms (svc w) !! roomID = Some room →
       res1 = Err (RoomAlreadyExists roomID) ∧
       w1 = w ∧
       Rooms (svc w1) !! roomID = Some room).
Proof.
  rw /CreateRoom /GetRoom.
  destruct (Rooms (svc w) !! roomID) as [room|] eqn:Hroom.
  - eexists _, _. split; [done|]. rw Hroom.
    split_and!; [done|done|done|]. by intros room' [= <-].
  - eexists _, _. split; [done|]. proj_simpl. rw lookup_insert_eq.
    split_and!; [done|done| |done].
    by intros room [= <-].
Qed.

(** C4 — When [LeaveRoom r p] removes a participant, the room stays
    registered: [GetRoom r] returns it without [p], and when [p] was the
    last participant it returns the empty room; a following
    [CreateRoom r] fails with RoomAlreadyExists and changes nothing. *)
Theorem LeaveRoom_last_participant_keeps_room w roomID userID room user :
  Rooms (svc w) !! roomID = Some room →
  Users room !! userID = Some user →
  ∃ w',
    LeaveRoom roomID userID w = (Ok (), w') ∧
    GetRoom roomID w'
      = (Ok (mkRoom (Room_ID room) (delete userID (Users room))), w') ∧
    (Users room = {[ userID := user ]} →
     GetRoom roomID w' = (Ok (mkRoom (Room_ID room) ∅), w')) ∧
    CreateRoom roomID w' = (Err (RoomAlreadyExists roomID), w').
Proof.
  intros Hroom Huser. rw /LeaveRoom Hroom Huser. eexists. split; [done|].
  rw /GetRoom /CreateRoom. proj_simpl. rw lookup_insert_eq.
  split_and!; [done| |done].
  intros ->. by rw delete_singleton_eq.
Qed.

(** C6 — On a registry where [r] is not registered, [JoinRoom r p h]
    returns RoomNotFound and leaves the world unchanged, so [r] is still
    not registered; after [CreateRoom r] the same call succeeds and
    [GetRoom r] returns a room whose only participant is [p], stored
    with connection [h]. *)
Theorem JoinRoom_requires_room w roomID userID conn :
  Rooms (svc w) !! roomID = None →
  JoinRoom roomID userID conn w = (Err (RoomNotFound roomID), w) ∧
  ∃ room0 w1,
    CreateRoom roomID w = (Ok room0, w1) ∧
    ∃ room w2,
      JoinRoom roomID userID conn w1 = (Ok room, w2) ∧
      GetRoom roomID w2 = (Ok room, w2) ∧
      Users room !! userID = Some (mkUser userID conn) ∧
      Users room = {[ userID := mkUser userID conn ]}.
Proof.
  intros Hroom. rw /JoinRoom /CreateRoom /GetRoom Hroom. split; [done|].
  eexists _, _. split; [done|]. proj_simpl.
  rw lookup_insert_eq. proj_simpl. rw lookup_empty.
  eexists _, _. split; [done|]. proj_simpl. rw lookup_insert_eq.
  split_and!; [done| |by rw insert_empty]. by rw lookup_insert_eq.
Qed.

(** *** The participant state machine *)

Lemma state_of_svc w w' roomID userID :
  svc w = svc w' → state_of w roomID userID = state_of w' roomID userID.
Proof. rw /state_of. by intros ->. Qed.

Lemma state_of_JOINED w roomID userID :
  state_of w roomID userID = JOINED ↔
    ∃ room user,
      Rooms (svc w) !! roomID = Some room ∧ Users room !! userID = Some user.
Proof.
  rw /state_of. split.
  - destruct (Rooms (svc w) !! roomID) as [room|]; [|done].
    destruct (Users room !! userID) as [user|] eqn:Hu; [|done]. eauto.
  - by intros (room & user & -> & ->).
Qed.

Lemma state_of_ABSENT w roomID userID room :
  Rooms (svc w) !! roomID = Some room →
  state_of w roomID userID = ABSENT ↔ Users room !! userID = None.
Proof.
  rw /state_of. intros ->.
  destruct (Users room !! userID); split; done.
Qed.

Lemma state_of_insert w roomID userID r room net :
  state_of (mkWorld (mkRTCService (<[r := room]> (Rooms (svc w)))) net)
    roomID userID =
    if decide (r = roomID)
    then match Users room !! userID with Some _ => JOINED | None => ABSENT end
    else state_of w roomID userID.
Proof.
  rw /state_of. proj_simpl. case_decide as Heq.
  - subst. by rw lookup_insert_eq.
  - by rw lookup_insert_ne.
Qed.

Lemma JoinRoom_JOINED w roomID userID conn :
  state_of w roomID userID = JOINED →
  JoinRoom roomID userID conn w
    = (Err (ParticipantAlreadyInRoom userID roomID), w).
Proof.
  intros (room & user & Hroom & Huser)%state_of_JOINED.
  by rw /JoinRoom Hroom Huser.
Qed.

Lemma JoinRoom_ABSENT w roomID userID conn room :
  Rooms (svc w) !! roomID = Some room →
  state_of w roomID userID = ABSENT →
  ∃ room1 w1,
    JoinRoom roomID userID conn w = (Ok room1, w1) ∧
    Rooms (svc w1) !! roomID = Some room1 ∧
    Users room1 = <[userID := mkUser userID conn]> (Users room) ∧
    state_of w1 roomID userID = JOINED.
Proof.
  intros Hroom Habs. pose proof Habs as Hnone.
  rw (state_of_ABSENT _ _ _ _ Hroom) in Hnone.
  rw /JoinRoom Hroom Hnone. eexists _, _. split; [done|].
  rw state_of_insert decide_True //. proj_simpl. rw !lookup_insert_eq //.
Qed.

Lemma LeaveRoom_JOINED w roomID userID :
  state_of w roomID userID = JOINED →
  ∃ room w1,
    Rooms (svc w) !! roomID = Some room ∧
    LeaveRoom roomID userID w = (Ok (), w1) ∧
    Rooms (svc w1) !! roomID
      = Some (mkRoom (Room_ID room) (delete userID (Users room))) ∧
    state_of w1 roomID userID = ABSENT.
Proof.
  intros (room & user & Hroom & Huser)%state_of_JOINED.
  rw /LeaveRoom Hroom Huser. eexists _, _. split_and!; [done|done|..].
  - proj_simpl. by rw lookup_insert_eq.
  - rw state_of_insert decide_True //. proj_simpl. by rw lookup_delete_eq.
Qed.

Lemma LeaveRoom_ABSENT w roomID userID room :
  Rooms (svc w) !! roomID = Some room →
  state_of w roomID userID = ABSENT →
  LeaveRoom roomID userID w = (Err (ParticipantNotInRoom userID roomID), w).
Proof.
  intros Hroom Habs. rw (state_of_ABSENT _ _ _ _ Hroom) in Habs.
  by rw /LeaveRoom Hroom Habs.
Qed.

(** What a call does to the state of one participant of one room. *)
Lemma exec_state_of call w roomID userID :
  state_of (exec call w).2 roomID userID = state_of w roomID userID ∨
  (state_of w roomID userID = ABSENT ∧
   state_of (exec call w).2 roomID userID = JOINED ∧
   (exec call w).1 = Ok () ∧
   ∃ conn, call = CallJoinRoom roomID userID conn) ∨
  (state_of w roomID userID = JOINED ∧
   state_of (exec call w).2 roomID userID = ABSENT ∧
   (exec call w).1 = Ok () ∧
   call = CallLeaveRoom roomID userID).
Proof.
  destruct call as [r|r u conn|r u|r|r sender message]; rw /exec /discard /bind.
  - left. rw /CreateRoom.
    destruct (Rooms (svc w) !! r) as [room|] eqn:Hr; [done|].
    proj_simpl. rw state_of_insert. case_decide; [subst|done].
    by rw /state_of Hr lookup_empty.
  - rw /JoinRoom. destruct (Rooms (svc w) !! r) as [room|] eqn:Hr; [|by left].
    destruct (Users room !! u) as [user|] eqn:Hu; [by left|].
    proj_simpl. rw state_of_insert. case_decide; [subst|by left].
    proj_simpl. destruct (decide (u = userID)) as [->|Hne].
    + right; left. rw lookup_insert_eq /state_of Hr Hu. eauto.
    + left. by rw lookup_insert_ne // /state_of Hr.
  - rw /LeaveRoom. destruct (Rooms (svc w) !! r) as [room|] eqn:Hr; [|by left].
    destruct (Users room !! u) as [user|] eqn:Hu; [|by left].
    proj_simpl. rw state_of_insert. case_decide; [subst|by left].
    proj_simpl. destruct (decide (u = userID)) as [->|Hne].
    + right; right. by rw lookup_delete_eq /state_of Hr Hu.
    + left. by rw lookup_delete_ne // /state_of Hr.
  - left. rw /GetRoom. by destruct (Rooms (svc w) !! r).
  - left. apply state_of_svc, SignalMessage_svc.
Qed.

(** C7 — In a registered room, starting from a participant that is
    ABSENT: [JoinRoom] succeeds and makes it JOINED, a second [JoinRoom]
    returns ParticipantAlreadyInRoom and changes nothing, [LeaveRoom]
    succeeds and makes it ABSENT, and a second [LeaveRoom] returns
    ParticipantNotInRoom and changes nothing.  In any state a [JoinRoom]
    of a JOINED participant and a [LeaveRoom] of an ABSENT one are
    rejected without effect; hence in a registered room the second of two
    [JoinRoom] in a row, and the second of two [LeaveRoom] in a row, is
    always rejected.  No call of the registry changes the state of a
    participant except a successful [JoinRoom] of it (ABSENT to JOINED)
    and a successful [LeaveRoom] of it (JOINED to ABSENT). *)
Theorem participant_state_machine :
  (∀ w roomID userID conn room,
     Rooms (svc w) !! roomID = Some room →
     state_of w roomID userID = ABSENT →
     ∃ room1 w1,
       JoinRoom roomID userID conn w = (Ok room1, w1) ∧
       state_of w1 roomID userID = JOINED ∧
       Users room1 = <[userID := mkUser userID conn]> (Users room) ∧
       JoinRoom roomID userID conn w1
         = (Err (ParticipantAlreadyInRoom userID roomID), w1) ∧
       ∃ w2,
         LeaveRoom roomID userID w1 = (Ok (), w2) ∧
         state_of w2 roomID userID = ABSENT ∧
         LeaveRoom roomID userID w2
           = (Err (ParticipantNotInRoom userID roomID), w2)) ∧
  (∀ w roomID userID conn,
     state_of w roomID userID = JOINED →
     JoinRoom roomID userID conn w
       = (Err (ParticipantAlreadyInRoom userID roomID), w)) ∧
  (∀ w roomID userID room,
     Rooms (svc w) !! roomID = Some room →
     state_of w roomID userID = ABSENT →
     LeaveRoom roomID userID w
       = (Err (ParticipantNotInRoom userID roomID), w)) ∧
  (∀ w roomID userID conn room,
     Rooms (svc w) !! roomID = Some room →
     JoinRoom roomID userID conn (JoinRoom roomID userID conn w).2
       = (Err (ParticipantAlreadyInRoom userID roomID),
          (JoinRoom roomID userID conn w).2)) ∧
  (∀ w roomID userID room,
     Rooms (svc w) !! roomID = Some room →
     LeaveRoom roomID userID (LeaveRoom roomID userID w).2
       = (Err (ParticipantNotInRoom userID roomID),
          (LeaveRoom roomID userID w).2)) ∧
  (∀ call w roomID userID,
     state_of (exec call w).2 roomID userID ≠ state_of w roomID userID →
     (state_of w roomID userID = ABSENT ∧
      state_of (exec call w).2 roomID userID = JOINED ∧
      (exec call w).1 = Ok () ∧
      ∃ conn, call = CallJoinRoom roomID userID conn) ∨
     (state_of w roomID userID = JOINED ∧
      state_of (exec call w).2 roomID userID = ABSENT ∧
      (exec call w).1 = Ok () ∧
      call = CallLeaveRoom roomID userID)).
Proof.
  split_and!.
  - intros w roomID userID conn room Hroom Habs.
    destruct (JoinRoom_ABSENT w roomID userID conn room Hroom Habs)
      as (room1 & w1 & Hjoin & Hroom1 & Husers & Hjoined).
    exists room1, w1. split_and!; [done|done|done|by apply JoinRoom_JOINED|].
    destruct (LeaveRoom_JOINED w1 roomID userID Hjoined)
      as (room1' & w2 & _ & Hleave & Hroom2 & Habs2).
    exists w2. split_and!; [done|done|]. by eapply LeaveRoom_ABSENT.
  - apply JoinRoom_JOINED.
  - apply LeaveRoom_ABSENT.
  - intros w roomID userID conn room Hroom.
    destruct (state_of w roomID userID) eqn:Hstate.
    + destruct (JoinRoom_ABSENT w roomID userID conn room Hroom Hstate)
        as (room1 & w1 & -> & _ & _ & Hjoined).
      by apply JoinRoom_JOINED.
    + rw (JoinRoom_JOINED w roomID userID conn Hstate).
      by apply JoinRoom_JOINED.
  - intros w roomID userID room Hroom.
    destruct (state_of w roomID userID) eqn:Hstate.
    + rw (LeaveRoom_ABSENT w roomID userID room Hroom Hstate).
      by eapply LeaveRoom_ABSENT.
    + destruct (LeaveRoom_JOINED w roomID userID Hstate)
        as (room1 & w1 & _ & -> & Hroom1 & Habsent).
      by eapply LeaveRoom_ABSENT.
  - intros call w roomID userID Hchange.
    by destruct (exec_state_of call w roomID userID) as [?|?].
Qed.

(** *** Keys and identifiers *)

Lemma keys_consistent_insert s roomID room :
  keys_consistent s →
  Room_ID room = roomID →
  (∀ userID user, Users room !! userID = Some user → User_ID user = userID) →
  keys_consistent (mkRTCService (<[roomID := room]> (Rooms s))).
Proof.
  intros Hs Hid Husers r room' Hr. proj_simpl.
  destruct (decide (roomID = r)) as [->|Hne].
  - rw lookup_insert_eq in Hr. by simplify_eq.
  - rw lookup_insert_ne // in Hr. by apply Hs.
Qed.

Lemma exec_keys_consistent call w :
  keys_consistent (svc w) → keys_consistent (svc (exec call w).2).
Proof.
  intros Hs.
  destruct call as [r|r u conn|r u|r|r sender message]; rw /exec /discard /bind.
  - rw /CreateRoom. destruct (Rooms (svc w) !! r) as [room|] eqn:Hr; [done|].
    proj_simpl. apply keys_consistent_insert; [done|done|].
    intros userID user Hu. by rw lookup_empty in Hu.
  - rw /JoinRoom. destruct (Rooms (svc w) !! r) as [room|] eqn:Hr; [|done].
    destruct (Users room !! u) as [user|] eqn:Hu; [done|].
    proj_simpl. destruct (Hs r room Hr) as [Hid Husers].
    apply keys_consistent_insert; [done|done|].
    intros userID user' Hu'. proj_simpl.
    destruct (decide (u = userID)) as [->|Hne].
    + rw lookup_insert_eq in Hu'. by simplify_eq.
    + rw lookup_insert_ne // in Hu'. by apply Husers.
  - rw /LeaveRoom. destruct (Rooms (svc w) !! r) as [room|] eqn:Hr; [|done].
    destruct (Users room !! u) as [user|] eqn:Hu; [|done].
    proj_simpl. destruct (Hs r room Hr) as [Hid Husers].
    apply keys_consistent_insert; [done|done|].
    intros userID user' Hu'. proj_simpl.
    apply lookup_delete_Some in Hu' as [_ Hu']. by apply Husers.
  - rw /GetRoom. by destruct (Rooms (svc w) !! r).
  - by rw SignalMessage_svc.
Qed.

(** C10 — The fresh registry has every room under its own identifier
    and every participant under its own identifier; each of the five
    calls keeps that, whatever it returns; hence it holds in every state
    reached from a fresh registry by any sequence of calls. *)
Theorem keys_consistent_reachable :
  keys_consistent NewRTCService ∧
  (∀ call w, keys_consistent (svc w) → keys_consistent (svc (exec call w).2)) ∧
  (∀ calls net, keys_consistent (svc (run calls (mkWorld NewRTCService net)))).
Proof.
  split_and!.
  - intros r room Hr. by rw /NewRTCService lookup_empty in Hr.
  - apply exec_keys_consistent.
  - intros calls net. rw /run.
    assert (keys_consistent (svc (mkWorld NewRTCService net))) as Hinit.
    { intros r room Hr. by rw /= lookup_empty in Hr. }
    revert Hinit. generalize (mkWorld NewRTCService net).
    induction calls as [|call calls IH]; intros w Hw; [done|].
    apply IH. by apply exec_keys_consistent.
Qed.

(** *** The relay of one inbound frame *)

Lemma onFrame_events w roomID userID mt msg :
  ∃ evs,
    onFrame roomID userID (mt, msg) w
      = (Ok (), mkWorld (svc w) (wire w ++ evs)) ∧
    (∀ ev, ev ∈ evs → ∃ c err, ev = Wrote c TextMessage msg err) ∧
    (∀ room other user c,
       Rooms (svc w) !! roomID = Some room →
       Users room !! other = Some user →
       other ≠ userID →
       User_Conn user = Some c →
       ∃ err, Wrote c TextMessage msg err ∈ evs).
Proof.
  rw /onFrame /catch.
  destruct (Rooms (svc w) !! roomID) as [room|] eqn:Hroom.
  - destruct (SignalMessage_registered roomID userID msg w room Hroom)
      as (targets & outs & Hperm & Hlen & ->).
    eexists. split; [by destruct (omap _ _)|]. split.
    + intros ev Hev.
      destruct (elem_of_deliveries _ _ _ _ Hev) as (u & c & err & -> & _).
      eauto.
    + intros room' other user c [= <-] Hu Hne Hc.
      apply (target_delivered msg targets outs other c); [done|].
      apply (recipient_of_room userID room); eauto.
  - rw SignalMessage_unregistered //. exists []. split_and!.
    + destruct w. by rw /= app_nil_r.
    + intros ev Hev. by apply not_elem_of_nil in Hev.
    + done.
Qed.

Lemma readLoop_events roomID userID inbound :
  ∀ w,
    ∃ evs,
      readLoop roomID userID inbound w
        = (Ok (), mkWorld (svc w) (wire w ++ evs)) ∧
      ∀ ev, ev ∈ evs →
        ∃ c err mt msg,
          (mt, msg) ∈ inbound ∧ ev = Wrote c TextMessage msg err.
Proof.
  induction inbound as [|[mt msg] rest IH]; intros w.
  - exists []. split; [destruct w; by rw /= app_nil_r|].
    intros ev Hev. by apply not_elem_of_nil in Hev.
  - destruct (onFrame_events w roomID userID mt msg) as (evs1 & Hstep & Htext & _).
    destruct (IH (mkWorld (svc w) (wire w ++ evs1))) as (evs2 & Hrest & Hin).
    exists (evs1 ++ evs2). split.
    + cbn [readLoop]. rw /bind Hstep Hrest. proj_simpl. by rw app_assoc.
    + intros ev [Hev|Hev]%elem_of_app.
      * destruct (Htext ev Hev) as (c & err & ->).
        exists c, err, mt, msg. split; [apply list_elem_of_here|done].
      * destruct (Hin ev Hev) as (c & err & mt' & msg' & Hmem & ->).
        exists c, err, mt', msg'. split; [by apply list_elem_of_further|done].
Qed.

Lemma notice_events c notice w :
  ∃ err,
    catch (WriteMessage (Some c) TextMessage notice)
      (λ _, catch (Close (Some c)) (λ _, ret ())) w
      = (Ok (),
         mkWorld (svc w)
           (wire w ++ [Wrote c TextMessage notice err; Closed c])).
Proof.
  exists (transport (wire w) c TextMessage notice).
  rw /catch /WriteMessage /Close.
  destruct (transport (wire w) c TextMessage notice); by rw /= -app_assoc.
Qed.

Lemma elem_of_notice c notice err0 c' mt' data err :
  Wrote c' mt' data err ∈ [Wrote c TextMessage notice err0; Closed c] →
  mt' = TextMessage.
Proof.
  intros Hin. apply elem_of_cons in Hin as [Heq|Hin]; [by simplify_eq|].
  apply elem_of_cons in Hin as [Heq|Hin]; [done|].
  by apply not_elem_of_nil in Hin.
Qed.

(** Every frame the handler writes, in any of its branches, is a text
    frame. *)
Lemma defaultHandler_text_only roomID userID c inbound w :
  ∀ c' mt' data err,
    Wrote c' mt' data err
      ∈ new_events w (defaultHandler roomID userID c inbound w).2 →
    mt' = TextMessage.
Proof.
  intros c' mt' data err. rw /defaultHandler. case_decide as Hempty.
  - destruct (notice_events c
                (list_byte_of_string "RoomID and UserID are required.") w)
      as (err0 & ->).
    rw new_events_app. apply elem_of_notice.
  - rw {1}/catch /JoinRoom.
    destruct (Rooms (svc w) !! roomID) as [room|]; last first.
    { destruct (notice_events c
                  (list_byte_of_string
                     ("Error joining room: " +:+ Error (RoomNotFound roomID))) w)
        as (err0 & ->).
      rw new_events_app. apply elem_of_notice. }
    destruct (Users room !! userID) as [user|].
    { destruct (notice_events c
                  (list_byte_of_string
                     ("Error joining room: "
                        +:+ Error (ParticipantAlreadyInRoom userID roomID))) w)
        as (err0 & ->).
      rw new_events_app. apply elem_of_notice. }
    rw /defer.
    match goal with
    | |- context [readLoop roomID userID inbound ?w1] =>
        destruct (readLoop_events roomID userID inbound w1) as (evs & -> & Htext)
    end.
    rw /LeaveRoom. proj_simpl.
    assert (∀ w2 : World,
              wire w2 = wire w ++ evs →
              Wrote c' mt' data err ∈ new_events w w2 → mt' = TextMessage)
      as Hany.
    { intros w2 Hw2. rw /new_events Hw2 drop_app_length. intros Hin.
      destruct (Htext _ Hin) as (? & ? & ? & ? & _ & Heq). by simplify_eq. }
    rw lookup_insert_eq. proj_simpl.
    destruct (<[userID:=_]> (Users room) !! userID); by apply Hany.
Qed.

(** C3 — For an inbound frame of any type, the handler's relay step
    succeeds, leaves the registry as it is, writes only frames that carry
    the payload bytes unchanged, writes one to the connection of every
    participant of the room other than the sender, and writes every such
    frame as a text frame; and every frame a run of the handler writes, for
    any sequence of inbound frames, is a text frame. *)
Theorem relay_writes_payload_as_text w roomID userID mt msg :
  (∃ w',
     onFrame roomID userID (mt, msg) w = (Ok (), w') ∧
     svc w' = svc w ∧
     wire w' = wire w ++ new_events w w' ∧
     (∀ ev, ev ∈ new_events w w' →
        ∃ c err, ev = Wrote c TextMessage msg err) ∧
     (∀ room other user c,
        Rooms (svc w) !! roomID = Some room →
        Users room !! other = Some user →
        other ≠ userID →
        User_Conn user = Some c →
        ∃ err, Wrote c TextMessage msg err ∈ new_events w w')) ∧
  (∀ c inbound c' mt' data err,
     Wrote c' mt' data err
       ∈ new_events w (defaultHandler roomID userID c inbound w).2 →
     mt' = TextMessage).
Proof.
  split; [|intros c inbound; apply defaultHandler_text_only].
  destruct (onFrame_events w roomID userID mt msg)
    as (evs & -> & Htext & Hall).
  eexists. split; [done|]. by rw new_events_app.
Qed.

End Properties.

(** ** Concrete instances *)

Lemma reliable_visits_once (m : gmap string User) :
  rangeUsers (Network := reliable) m ≡ₚ map_to_list m.
Proof. reflexivity. Defined.

Lemma broken_2_visits_once (m : gmap string User) :
  rangeUsers (Network := broken_2) m ≡ₚ map_to_list m.
Proof. reflexivity. Defined.

Example world_abc_room : Rooms (svc world_abc) !! "r" = Some room_abc.
Proof. vm_compute. reflexivity. Qed.

Example world_rest_room : Rooms (svc world_rest) !! "r" = Some room_rest.
Proof. vm_compute. reflexivity. Qed.

(** The end-to-end scenario: [u2] receives exactly the payload, [u1]
    nothing. *)
Example end_to_end :
  (run (N := reliable)
     [CallCreateRoom "r1"; CallJoinRoom "r1" "u1" (Some 1);
      CallJoinRoom "r1" "u2" (Some 2); CallSignalMessage "r1" "u1" hello]
     fresh).(wire)
  = [Wrote 2 TextMessage hello None].
Proof. vm_compute. reflexivity. Qed.

(** With the connection of [b] broken, [c] is still written to and the
    error names [b]. *)
Example partial_failure :
  (SignalMessage (N := broken_2) "r" "a" hello world_abc).1
    = Err (DeliveryFailure [SendError "b" "r" "broken pipe"]) ∧
  Wrote 3 TextMessage hello None
    ∈ wire (SignalMessage (N := broken_2) "r" "a" hello world_abc).2 ∧
  Error (DeliveryFailure [SendError "b" "r" "broken pipe"])
    = "errors during SignalMessage broadcast: [failed to send message to user b in room r: broken pipe]".
Proof. vm_compute. split_and!; [done| |done]. set_solver. Qed.

(** ** Instances of the theorems *)

Lemma SignalMessage_delivers_witness :
  (∀ m, rangeUsers (Network := broken_2) m ≡ₚ map_to_list m) ∧
  Rooms (svc world_abc) !! "r" = Some room_abc ∧
  ∃ err,
    Wrote 3 TextMessage hello err
      ∈ new_events world_abc
          (SignalMessage (N := broken_2) "r" "a" hello world_abc).2.
Proof.
  split; [exact broken_2_visits_once|].
  split; [vm_compute; reflexivity|].
  destruct (SignalMessage_delivers_to_all_but_sender (N := broken_2)
              broken_2_visits_once world_abc "r" "a" hello) as [_ H].
  destruct (H room_abc) as (res & w' & Heq & _ & _ & Hdel & _);
    [vm_compute; reflexivity|].
  rw Heq.
  apply (Hdel "c" (mkUser "c" (Some 3)) 3);
    [vm_compute; reflexivity|discriminate|reflexivity].
Defined.

Lemma SignalMessage_partial_failure_witness :
  (∀ m, rangeUsers (Network := broken_2) m ≡ₚ map_to_list m) ∧
  Rooms (svc world_abc) !! "r" = Some room_abc ∧
  ∃ sendErrors,
    (SignalMessage (N := broken_2) "r" "a" hello world_abc).1
      = Err (DeliveryFailure sendErrors) ∧
    send_error_cause <$> sendErrors = ["broken pipe"].
Proof.
  split; [exact broken_2_visits_once|].
  split; [vm_compute; reflexivity|].
  destruct (SignalMessage_partial_failure (N := broken_2)
              broken_2_visits_once world_abc "r" "a" hello room_abc)
    as (res & w' & Heq & _ & _ & Hfail & _); [vm_compute; reflexivity|].
  assert (w' = (SignalMessage (N := broken_2) "r" "a" hello world_abc).2)
    as Hw' by (rw Heq; reflexivity).
  destruct Hfail as (sendErrors & Hres & Hcauses & _).
  { rw Hw'. vm_compute. discriminate. }
  exists sendErrors. rw Heq. split; [exact Hres|].
  rw Hcauses Hw'. vm_compute. reflexivity.
Defined.

Lemma SignalMessage_skips_nil_handles_witness :
  (∀ m, rangeUsers (Network := reliable) m ≡ₚ map_to_list m) ∧
  Rooms (svc world_rest) !! "r" = Some room_rest ∧
  SignalMessage (N := reliable) "r" "a" hello world_rest
    = (Ok (), world_rest).
Proof.
  split; [exact reliable_visits_once|].
  split; [vm_compute; reflexivity|].
  destruct (SignalMessage_skips_nil_handles (N := reliable)
              reliable_visits_once world_rest "r" "a" hello room_rest)
    as (res & w' & Heq & _ & _ & _ & _ & Hnil); [vm_compute; reflexivity|].
  destruct Hnil as [-> ->]; [|exact Heq].
  intros userID user Hu Hne. unfold room_rest in Hu. cbn [Users] in Hu.
  destruct (decide ("b" = userID)) as [<-|Hb].
  - rw lookup_insert_eq in Hu. by simplify_eq.
  - rw lookup_insert_ne // in Hu.
    apply lookup_singleton_Some in Hu as [<- _]. done.
Defined.

Lemma LeaveRoom_last_participant_witness :
  Rooms (svc world_a) !! "r" = Some room_a ∧
  Users room_a !! "a" = Some (mkUser "a" (Some 1)) ∧
  ∃ w',
    LeaveRoom "r" "a" world_a = (Ok (), w') ∧
    GetRoom "r" w' = (Ok (mkRoom "r" ∅), w') ∧
    CreateRoom "r" w' = (Err (RoomAlreadyExists "r"), w').
Proof.
  split; [vm_compute; reflexivity|].
  split; [vm_compute; reflexivity|].
  destruct (LeaveRoom_last_participant_keeps_room world_a "r" "a" room_a
              (mkUser "a" (Some 1)))
    as (w' & Hleave & _ & Hempty & Hcreate);
    [vm_compute; reflexivity|vm_compute; reflexivity|].
  exists w'. split; [exact Hleave|]. split; [|exact Hcreate].
  apply Hempty. reflexivity.
Defined.

Lemma JoinRoom_requires_room_witness :
  Rooms (svc fresh) !! "r" = None ∧
  JoinRoom "r" "p" (Some 7) fresh = (Err (RoomNotFound "r"), fresh).
Proof.
  split; [reflexivity|].
  apply (JoinRoom_requires_room fresh "r" "p" (Some 7)). reflexivity.
Defined.

Lemma CreateRoom_twice_witness :
  Rooms (svc fresh) !! "r" = None ∧
  ∃ w1,
    CreateRoom "r" fresh = (Ok (mkRoom "r" ∅), w1) ∧
    Rooms (svc w1) !! "r" = Some (mkRoom "r" ∅) ∧
    CreateRoom "r" w1 = (Err (RoomAlreadyExists "r"), w1).
Proof.
  split; [reflexivity|].
  destruct (CreateRoom_twice fresh "r")
    as (res1 & w1 & Heq & Hsecond & Hnew & Hok & _).
  destruct (Hnew eq_refl) as (Hres & _ & _).
  exists w1. rw Heq Hres. split; [reflexivity|]. split; [|exact Hsecond].
  destruct (Hok (mkRoom "r" ∅) Hres) as (_ & _ & Hregistered).
  exact Hregistered.
Defined.

Lemma participant_state_machine_witness :
  Rooms (svc world_r) !! "r" = Some (mkRoom "r" ∅) ∧
  state_of world_r "r" "p" = ABSENT ∧
  ∃ room1 w1,
    JoinRoom "r" "p" None world_r = (Ok room1, w1) ∧
    state_of w1 "r" "p" = JOINED ∧
    JoinRoom "r" "p" None w1 = (Err (ParticipantAlreadyInRoom "p" "r"), w1).
Proof.
  split; [vm_compute; reflexivity|].
  split; [vm_compute; reflexivity|].
  destruct (participant_state_machine (N := reliable)) as [Hcycle _].
  destruct (Hcycle world_r "r" "p" None (mkRoom "r" ∅))
    as (room1 & w1 & Hjoin & Hjoined & _ & Hagain & _);
    [vm_compute; reflexivity|vm_compute; reflexivity|].
  exists room1, w1. split; [exact Hjoin|]. split; [exact Hjoined|exact Hagain].
Defined.

Lemma keys_consistent_witness :
  keys_consistent (svc fresh) ∧
  keys_consistent (svc (exec (N := reliable) (CallCreateRoom "r") fresh).2) ∧
  keys_consistent (svc world_abc).
Proof.
  destruct (keys_consistent_reachable (N := reliable))
    as (Hfresh & Hstep & Hrun).
  split; [exact Hfresh|]. split.
  - apply Hstep. exact Hfresh.
  - apply (Hrun [CallCreateRoom "r"; CallJoinRoom "r" "a" (Some 1);
                 CallJoinRoom "r" "b" (Some 2); CallJoinRoom "r" "c" (Some 3)]
             []).
Defined.

Lemma relay_writes_payload_as_text_witness :
  (∀ m, rangeUsers (Network := reliable) m ≡ₚ map_to_list m) ∧
  ∃ w',
    onFrame (N := reliable) "r" "a" (BinaryMessage, hello) world_abc
      = (Ok (), w') ∧
    ∀ ev, ev ∈ new_events world_abc w' →
      ∃ c err, ev = Wrote c TextMessage hello err.
Proof.
  split; [exact reliable_visits_once|].
  destruct (relay_writes_payload_as_text (N := reliable)
              reliable_visits_once world_abc "r" "a" BinaryMessage hello)
    as [(w' & Hrun & _ & _ & Htext & _) _].
  exists w'. split; [exact Hrun|exact Htext].
Defined.

(** ** A binary frame is relayed as a text frame *)

(** When [a] connects to room [r], where [b] sits on connection 2, and
    sends one binary frame, the handler writes the bytes to [b] in a text
    frame: the relay does not keep the frame type. *)
Lemma binary_frame_relayed_as_text :
  wire (defaultHandler (N := reliable) "r" "a" 1
          [(BinaryMessage, hello)] world_b).2
    = [Wrote 2 TextMessage hello None] ∧
  TextMessage ≠ BinaryMessage ∧
  ¬ relay_preserves_frame_type (N := reliable).
Proof.
  split; [vm_compute; reflexivity|]. split; [discriminate|].
  intros Hpreserved.
  assert (TextMessage = BinaryMessage) as Heq; [|discriminate Heq].
  apply (Hpreserved world_abc "r" "a" BinaryMessage hello 2 TextMessage hello None).
  vm_compute. set_solver.
Qed.

(** ** Further properties of the registry *)

Section RegistryFrames.

Context {N : Network}.

Lemma room_eta room : mkRoom (Room_ID room) (Users room) = room.
Proof. by destruct room. Qed.

Lemma world_eta w : mkWorld (mkRTCService (Rooms (svc w))) (wire w) = w.
Proof. by destruct w as [[rooms] net]. Qed.

(** X1 — [JoinRoom r p h] and [LeaveRoom r p], whether they succeed or
    not, write nothing to the network, leave every other room as it is,
    keep the identifier of room [r], and leave every other participant of
    [r] as it is. *)
Theorem JoinRoom_LeaveRoom_frame w roomID userID conn :
  (wire (JoinRoom roomID userID conn w).2 = wire w ∧
   wire (LeaveRoom roomID userID w).2 = wire w) ∧
  (∀ r, r ≠ roomID →
     Rooms (svc (JoinRoom roomID userID conn w).2) !! r = Rooms (svc w) !! r ∧
     Rooms (svc (LeaveRoom roomID userID w).2) !! r = Rooms (svc w) !! r) ∧
  (∀ room, Rooms (svc w) !! roomID = Some room →
     ∃ room1 room2,
       Rooms (svc (JoinRoom roomID userID conn w).2) !! roomID = Some room1 ∧
       Rooms (svc (LeaveRoom roomID userID w).2) !! roomID = Some room2 ∧
       Room_ID room1 = Room_ID room ∧
       Room_ID room2 = Room_ID room ∧
       ∀ other, other ≠ userID →
         Users room1 !! other = Users room !! other ∧
         Users room2 !! other = Users room !! other).
Proof.
  rw /JoinRoom /LeaveRoom.
  destruct (Rooms (svc w) !! roomID) as [room|] eqn:Hroom; last first.
  { by split_and!. }
  destruct (Users room !! userID) as [user|] eqn:Huser; proj_simpl.
  - split_and!; [done|done| |].
    + intros r Hr. by rw lookup_insert_ne.
    + intros room' [= <-]. eexists _, _. rw lookup_insert_eq.
      split_and!; [done|done|done|done|].
      intros other Hother. proj_simpl. by rw lookup_delete_ne.
  - split_and!; [done|done| |].
    + intros r Hr. by rw lookup_insert_ne.
    + intros room' [= <-]. eexists _, _. rw lookup_insert_eq.
      split_and!; [done|done|done|done|].
      intros other Hother. proj_simpl. by rw lookup_insert_ne.
Qed.

Lemma LeaveRoom_after_JoinRoom w roomID userID conn room :
  Rooms (svc w) !! roomID = Some room →
  Users room !! userID = None →
  ∃ room1 w1,
    JoinRoom roomID userID conn w = (Ok room1, w1) ∧
    wire w1 = wire w ∧
    Rooms (svc w1) !! roomID = Some room1 ∧
    Users room1 = <[userID := mkUser userID conn]> (Users room) ∧
    ∀ w2, svc w2 = svc w1 →
      LeaveRoom roomID userID w2 = (Ok (), mkWorld (svc w) (wire w2)).
Proof.
  intros Hroom Huser. rw /JoinRoom Hroom Huser. eexists _, _.
  split; [done|]. proj_simpl. rw lookup_insert_eq.
  split_and!; [done|done|done|].
  intros w2 Hw2. rw /LeaveRoom Hw2. proj_simpl.
  rw !lookup_insert_eq. proj_simpl.
  rw insert_insert_eq delete_insert_eq delete_id // room_eta insert_id //.
  by destruct (svc w).
Qed.

(** X2 — Joining a room and leaving it again restores the world exactly:
    for a participant that is ABSENT from a registered room, [JoinRoom]
    followed by [LeaveRoom] both succeed and give back the world they
    started from. *)
Theorem JoinRoom_then_LeaveRoom_restores w roomID userID conn room :
  Rooms (svc w) !! roomID = Some room →
  state_of w roomID userID = ABSENT →
  ∃ room1 w1,
    JoinRoom roomID userID conn w = (Ok room1, w1) ∧
    LeaveRoom roomID userID w1 = (Ok (), w).
Proof.
  intros Hroom Habs. rw (state_of_ABSENT _ _ _ _ Hroom) in Habs.
  destruct (LeaveRoom_after_JoinRoom w roomID userID conn room Hroom Habs)
    as (room1 & w1 & Hjoin & Hwire & _ & _ & Hleave).
  exists room1, w1. split; [done|].
  rw (Hleave w1 eq_refl) Hwire. by destruct w.
Qed.

Lemma exec_keeps_room call w roomID room :
  Rooms (svc w) !! roomID = Some room →
  ∃ room', Rooms (svc (exec call w).2) !! roomID = Some room' ∧
           Room_ID room' = Room_ID room.
Proof.
  intros Hroom.
  destruct call as [r|r u conn|r u|r|r sender message]; rw /exec /discard /bind.
  - rw /CreateRoom. destruct (Rooms (svc w) !! r) as [room0|] eqn:Hr; [eauto|].
    proj_simpl. rw lookup_insert_ne; [eauto|]. intros ->. by simplify_eq.
  - rw /JoinRoom. destruct (Rooms (svc w) !! r) as [room0|] eqn:Hr; [|eauto].
    destruct (Users room0 !! u); [eauto|]. proj_simpl.
    destruct (decide (r = roomID)) as [->|Hne].
    + rw lookup_insert_eq. simplify_eq. eauto.
    + rw lookup_insert_ne //. eauto.
  - rw /LeaveRoom. destruct (Rooms (svc w) !! r) as [room0|] eqn:Hr; [|eauto].
    destruct (Users room0 !! u); [|eauto]. proj_simpl.
    destruct (decide (r = roomID)) as [->|Hne].
    + rw lookup_insert_eq. simplify_eq. eauto.
    + rw lookup_insert_ne //. eauto.
  - rw /GetRoom. destruct (Rooms (svc w) !! r); eauto.
  - rw SignalMessage_svc. eauto.
Qed.

(** X3 — No call of the registry removes a room: a room that is
    registered stays registered, under the same identifier, after any
    sequence of calls. *)
Theorem rooms_are_never_removed calls :
  ∀ w roomID room,
    Rooms (svc w) !! roomID = Some room →
    ∃ room', Rooms (svc (run calls w)) !! roomID = Some room' ∧
             Room_ID room' = Room_ID room.
Proof.
  induction calls as [|call calls IH]; intros w roomID room Hroom; [eauto|].
  destruct (exec_keeps_room call w roomID room Hroom) as (room1 & Hroom1 & Hid).
  destruct (IH (exec call w).2 roomID room1 Hroom1) as (room' & Hroom' & Hid').
  exists room'. split; [done|]. by rw Hid'.
Qed.

(** X4 — Participant identifiers are scoped by room: a participant that
    is JOINED in one room can join another registered room under the same
    identifier, and is then JOINED in both. *)
Theorem same_participant_in_two_rooms w r1 r2 userID conn room2 :
  r1 ≠ r2 →
  state_of w r1 userID = JOINED →
  Rooms (svc w) !! r2 = Some room2 →
  state_of w r2 userID = ABSENT →
  ∃ room w',
    JoinRoom r2 userID conn w = (Ok room, w') ∧
    state_of w' r1 userID = JOINED ∧
    state_of w' r2 userID = JOINED.
Proof.
  intros Hne Hin1 Hroom2 Hout2.
  destruct (JoinRoom_ABSENT w r2 userID conn room2 Hroom2 Hout2)
    as (room & w' & Hjoin & _ & _ & Hin2).
  exists room, w'. split_and!; [done| |done].
  pose proof (exec_state_of (CallJoinRoom r2 userID conn) w r1 userID) as Hstep.
  rw /exec /discard /bind Hjoin /= in Hstep.
  destruct Hstep as [->|[(Habs & _)|(_ & _ & _ & [=])]]; [done|congruence].
Qed.

End RegistryFrames.

(** ** Properties of the REST handlers *)

Section RestProperties.

Context {N : Network}.

Hypothesis rangeUsers_perm : ∀ m, rangeUsers m ≡ₚ map_to_list m.

(** The message of a rejected join is never the message of a missing
    room: they differ in their first character. *)
Lemma already_in_room_is_not_not_found userID roomID r :
  Error (ParticipantAlreadyInRoom userID roomID) ≠ "room " +:+ r +:+ " not found".
Proof. done. Qed.

(** X5 — [JoinRoomHandler] answers 400 when the room or the user
    identifier is empty; otherwise 404 exactly when the room is not
    registered, 500 exactly when the user is already in the room, both
    without changing anything, and 200 exactly when the user was ABSENT
    from a registered room, in which case the user is now stored in it
    with a nil connection. *)
Theorem JoinRoomHandler_status w roomID userID :
  (roomID = "" ∨ userID = "" →
     JoinRoomHandler roomID userID w = (Ok StatusBadRequest, w)) ∧
  (roomID ≠ "" → userID ≠ "" →
     (Rooms (svc w) !! roomID = None →
        JoinRoomHandler roomID userID w = (Ok StatusNotFound, w)) ∧
     (state_of w roomID userID = JOINED →
        JoinRoomHandler roomID userID w = (Ok StatusInternalServerError, w)) ∧
     (∀ room,
        Rooms (svc w) !! roomID = Some room →
        state_of w roomID userID = ABSENT →
        ∃ w',
          JoinRoomHandler roomID userID w = (Ok StatusOK, w') ∧
          wire w' = wire w ∧
          Rooms (svc w') !! roomID
            = Some (mkRoom (Room_ID room)
                      (<[userID := mkUser userID None]> (Users room))))).
Proof.
  rw /JoinRoomHandler. split.
  - intros [->| ->]; by repeat case_decide.
  - intros Hr Hu. rw (decide_False (P := roomID = "")) //.
    rw (decide_False (P := userID = "")) // /catch. split_and!.
    + intros Hroom. rw /JoinRoom Hroom. by case_decide.
    + intros Hjoined. rw (JoinRoom_JOINED w roomID userID None Hjoined).
      case_decide as Heq; [|done].
      by apply already_in_room_is_not_not_found in Heq.
    + intros room Hroom Habs.
      destruct (JoinRoom_ABSENT w roomID userID None room Hroom Habs)
        as (room1 & w1 & Hjoin & Hroom1 & Husers & _).
      rw Hjoin. exists w1. split; [done|].
      move: Hjoin. rw /JoinRoom Hroom.
      destruct (Users room !! userID); [done|]. intros [= <- <-].
      proj_simpl. by rw lookup_insert_eq.
Qed.

(** X6 — [LeaveRoomHandler] never answers 500.  It answers 200 exactly
    when the room and the user identifier are given and the user is JOINED,
    and the user is then ABSENT; it answers 404 exactly when both are given
    and the user is ABSENT, be it that the room is not registered or that
    the user is not in it; every answer other than 200 leaves the world
    unchanged. *)
Theorem LeaveRoomHandler_status w roomID body :
  ∃ resp w',
    LeaveRoomHandler roomID body w = (Ok resp, w') ∧
    status_of resp ≠ StatusInternalServerError ∧
    (status_of resp = StatusOK ↔
       roomID ≠ "" ∧
       ∃ userID, body = Parsed userID ∧ userID ≠ "" ∧
                 state_of w roomID userID = JOINED) ∧
    (status_of resp = StatusNotFound ↔
       roomID ≠ "" ∧
       ∃ userID, body = Parsed userID ∧ userID ≠ "" ∧
                 state_of w roomID userID = ABSENT) ∧
    (status_of resp = StatusOK →
       ∀ userID, body = Parsed userID → state_of w' roomID userID = ABSENT) ∧
    (status_of resp ≠ StatusOK → w' = w).
Proof.
  rw /LeaveRoomHandler. case_decide as Hr.
  { eexists _, _. split; [done|]. split_and!; try done.
    - split; [done|]. by intros [? _].
    - split; [done|]. by intros [? _]. }
  destruct body as [userID| |].
  2,3: eexists _, _; split; [done|]; split_and!; try done;
       (split; [done|]; by intros (_ & ? & ? & _)).
  case_decide as Hu.
  { eexists _, _. split; [done|]. split_and!; try done.
    - split; [done|]. intros (_ & ? & [= <-] & ? & _). done.
    - split; [done|]. intros (_ & ? & [= <-] & ? & _). done. }
  rw /catch. destruct (state_of w roomID userID) eqn:Hstate.
  - assert (∃ err, LeaveRoom roomID userID w = (Err err, w) ∧
                   (Error err = "room " +:+ roomID +:+ " not found" ∨
                    Error err
                      = "user " +:+ userID +:+ " not in room " +:+ roomID))
      as (err & -> & Herr).
    { rw /LeaveRoom. move: Hstate. rw /state_of.
      destruct (Rooms (svc w) !! roomID) as [room|]; [|eauto].
      destruct (Users room !! userID); [done|eauto]. }
    rw decide_True //. eexists _, _. split; [done|]. split_and!; try done.
    + split; [by intros Hs; vm_compute in Hs|].
      intros (_ & ? & [= <-] & _ & ?). congruence.
    + split; [|done]. intros _. split; [done|]. eauto.
  - destruct (LeaveRoom_JOINED w roomID userID Hstate)
      as (room & w1 & _ & -> & _ & Habs).
    eexists _, _. split; [done|]. split_and!; try done.
    + split; [|done]. intros _. split; [done|]. eauto.
    + split; [by intros Hs; vm_compute in Hs|].
      intros (_ & ? & [= <-] & _ & ?). congruence.
    + by intros _ ? [= <-].
Qed.

(** X7 — [GetRoomHandler] changes nothing and never answers 500: it
    answers 400 for an empty room identifier, 404 with the message of
    [GetRoom] when the room is not registered, and otherwise 200 with the
    identifier of the room and the identifiers of its participants, each
    exactly once. *)
Theorem GetRoomHandler_lists_participants w roomID :
  ∃ resp,
    GetRoomHandler roomID w = (Ok resp, w) ∧
    status_of resp ≠ StatusInternalServerError ∧
    (roomID = "" → status_of resp = StatusBadRequest) ∧
    (roomID ≠ "" → Rooms (svc w) !! roomID = None →
       resp = ErrorResponse StatusNotFound (Error (RoomNotFound roomID))) ∧
    (roomID ≠ "" → ∀ room, Rooms (svc w) !! roomID = Some room →
       ∃ userIDs,
         resp = GetRoomResponse StatusOK (Room_ID room) userIDs ∧
         NoDup userIDs ∧
         length userIDs = size (Users room) ∧
         ∀ userID, userID ∈ userIDs ↔ state_of w roomID userID = JOINED).
Proof.
  rw /GetRoomHandler. case_decide as Hr.
  { eexists. split; [done|]. by split_and!. }
  rw /catch /GetRoom. destruct (Rooms (svc w) !! roomID) as [room|] eqn:Hroom.
  - eexists. split; [done|]. split_and!; try done.
    intros _ room' [= <-]. exists ((rangeUsers (Users room)).*1).
    split; [done|].
    assert ((rangeUsers (Users room)).*1 ≡ₚ (map_to_list (Users room)).*1)
      as Hperm by by rw (rangeUsers_perm (Users room)).
    split_and!.
    + rw Hperm. apply NoDup_fst_map_to_list.
    + by rw Hperm length_fmap length_map_to_list.
    + intros userID. rw Hperm state_of_JOINED Hroom. split.
      * intros ([u user] & -> & Hin%elem_of_map_to_list)%list_elem_of_fmap.
        eauto.
      * intros (room' & user & [= <-] & Huser).
        apply list_elem_of_fmap. exists (userID, user).
        split; [done|]. by apply elem_of_map_to_list.
  - rw decide_True //. eexists. split; [done|]. by split_and!.
Qed.

(** X8 — [CreateRoomHandler] answers 400 without effect when the body
    does not parse.  Otherwise the room identifier is the one requested or,
    when none is given, the generated one; if no room has it, the answer is
    201 with that identifier and zero users, and the empty room is
    registered; if a room has it, the answer is 500 with the message of
    [CreateRoom] and nothing changes. *)
Theorem CreateRoomHandler_status w newUUID body :
  (body = ParseError →
     CreateRoomHandler newUUID body w
       = (Ok (ErrorResponse StatusBadRequest "Cannot parse JSON"), w)) ∧
  (∀ roomID,
     (body = Parsed roomID ∧ roomID ≠ "") ∨
     ((body = UnprocessableEntity ∨ body = Parsed "") ∧ roomID = newUUID) →
     (Rooms (svc w) !! roomID = None →
        CreateRoomHandler newUUID body w
          = (Ok (CreateRoomResponse StatusCreated roomID 0),
             mkWorld
               (mkRTCService (<[roomID := mkRoom roomID ∅]> (Rooms (svc w))))
               (wire w))) ∧
     (is_Some (Rooms (svc w) !! roomID) →
        CreateRoomHandler newUUID body w
          = (Ok (ErrorResponse StatusInternalServerError
                   ("room " +:+ roomID +:+ " already exists")), w))).
Proof.
  split; [by intros ->|].
  intros roomID Hbody.
  assert (CreateRoomHandler newUUID body w =
            catch (CreateRoom roomID)
              (λ r,
                 match r with
                 | inr err =>
                     ret (ErrorResponse StatusInternalServerError (Error err))
                 | inl room =>
                     ret (CreateRoomResponse StatusCreated (Room_ID room)
                            (size (Users room)))
                 end) w) as ->.
  { rw /CreateRoomHandler.
    destruct Hbody as [[-> Hne]|[[->| ->] ->]]; [by rw decide_False|done|done]. }
  rw /catch /CreateRoom. split.
  - intros ->. by rw /ret /= map_size_empty.
  - by intros [room ->].
Qed.

End RestProperties.

(** ** Properties of a connection session *)

Section SessionProperties.

Context {N : Network}.

Lemma onFrame_ok roomID userID frame w :
  ∃ evs, onFrame roomID userID frame w
           = (Ok (), mkWorld (svc w) (wire w ++ evs)).
Proof.
  destruct frame as [mt msg]. rw /onFrame /catch /SignalMessage.
  destruct (Rooms (svc w) !! roomID) as [room|].
  - rw /bind.
    destruct (broadcast_spec roomID userID msg (rangeUsers (Users room)) [] w)
      as (outs & _ & ->).
    eexists. by case_decide.
  - exists []. destruct w. by rw /= app_nil_r.
Qed.

Lemma readLoop_ok roomID userID inbound :
  ∀ w, ∃ evs, readLoop roomID userID inbound w
                = (Ok (), mkWorld (svc w) (wire w ++ evs)).
Proof.
  induction inbound as [|frame rest IH]; intros w.
  - exists []. destruct w. by rw /= app_nil_r.
  - destruct (onFrame_ok roomID userID frame w) as (evs1 & Hstep).
    destruct (IH (mkWorld (svc w) (wire w ++ evs1))) as (evs2 & Hrest).
    exists (evs1 ++ evs2). cbn [readLoop]. rw /bind Hstep Hrest.
    proj_simpl. by rw app_assoc.
Qed.

(** X9 — A connection session taken on its own, with no other call of
    the registry in between, leaves the registry exactly as it found it: a
    rejected connection changes nothing, and an accepted participant is
    removed again when its read loop ends.  The removal is deferred, so it
    does not depend on how the loop ends: after a successful join, whatever
    runs in place of the loop and whatever it returns, a panic included, the
    deferred [LeaveRoom] gives back the registry as it was before the join,
    provided the loop itself left the registry alone. *)
Theorem defaultHandler_restores_registry w roomID userID c inbound :
  svc (defaultHandler roomID userID c inbound w).2 = svc w ∧
  (∀ room1 w1 (loop : M unit),
     JoinRoom roomID userID (Some c) w = (Ok room1, w1) →
     svc (loop w1).2 = svc w1 →
     svc (defer loop (LeaveRoom roomID userID) w1).2 = svc w).
Proof.
  split.
  - rw /defaultHandler. case_decide as Hempty.
    { by destruct (notice_events c
                     (list_byte_of_string "RoomID and UserID are required.") w)
        as (err & ->). }
    destruct (Rooms (svc w) !! roomID) as [room|] eqn:Hroom; last first.
    { rw {1}/catch /JoinRoom Hroom.
      by destruct (notice_events c
                     (list_byte_of_string
                        ("Error joining room: "
                           +:+ Error (RoomNotFound roomID))) w)
        as (err & ->). }
    destruct (Users room !! userID) as [user|] eqn:Huser.
    { rw {1}/catch /JoinRoom Hroom Huser.
      by destruct (notice_events c
                     (list_byte_of_string
                        ("Error joining room: "
                           +:+ Error (ParticipantAlreadyInRoom userID roomID))) w)
        as (err & ->). }
    destruct (LeaveRoom_after_JoinRoom w roomID userID (Some c) room Hroom
                Huser) as (room1 & w1 & Hjoin & _ & _ & _ & Hleave).
    rw {1}/catch Hjoin /defer.
    destruct (readLoop_ok roomID userID inbound w1) as (evs & ->).
    by rw Hleave.
  - intros room1 w1 loop Hjoin Hloop.
    destruct (Rooms (svc w) !! roomID) as [room|] eqn:Hroom;
      [|by rw /JoinRoom Hroom in Hjoin].
    destruct (Users room !! userID) as [user|] eqn:Huser;
      [by rw /JoinRoom Hroom Huser in Hjoin|].
    destruct (LeaveRoom_after_JoinRoom w roomID userID (Some c) room Hroom
                Huser) as (room1' & w1' & Hjoin' & _ & _ & _ & Hleave).
    rw Hjoin in Hjoin'. injection Hjoin' as <- <-.
    rw /defer. destruct (loop w1) as [res w2] eqn:Hrun.
    by rw (Hleave w2 Hloop).
Qed.

(** X10 — A connection that cannot join is turned away without touching
    the room: when the room or the user identifier is empty, the room is
    not registered, or a participant with that identifier is already in the
    room, the handler relays none of the inbound frames, keeps the registry
    as it is (the participant already there stays), and only writes one
    text frame to the new connection and closes it. *)
Theorem defaultHandler_rejects w roomID userID c inbound :
  roomID = "" ∨ userID = "" ∨
  Rooms (svc w) !! roomID = None ∨ state_of w roomID userID = JOINED →
  ∃ notice err,
    defaultHandler roomID userID c inbound w
      = (Ok (),
         mkWorld (svc w)
           (wire w ++ [Wrote c TextMessage notice err; Closed c])).
Proof.
  intros Hwhy. rw /defaultHandler. case_decide as Hempty.
  { destruct (notice_events c
                (list_byte_of_string "RoomID and UserID are required.") w)
      as (err & ->). eauto. }
  destruct Hwhy as [->|[->|[Hroom|Hjoined]]]; [by destruct Hempty; left|
    by destruct Hempty; right|..].
  - rw {1}/catch /JoinRoom Hroom.
    destruct (notice_events c
                (list_byte_of_string
                   ("Error joining room: " +:+ Error (RoomNotFound roomID))) w)
      as (err & ->). eauto.
  - rw {1}/catch (JoinRoom_JOINED w roomID userID (Some c) Hjoined).
    destruct (notice_events c
                (list_byte_of_string
                   ("Error joining room: "
                      +:+ Error (ParticipantAlreadyInRoom userID roomID))) w)
      as (err & ->). eauto.
Qed.

End SessionProperties.

Section SessionDeliveries.

Context {N : Network}.

Hypothesis rangeUsers_perm : ∀ m, rangeUsers m ≡ₚ map_to_list m.












(** X13 — A user joined through the REST handler cannot attach a
    WebSocket: once [JoinRoomHandler] has answered 200 for a room and a
    user, a connection handler started for the same room and user is
    turned away with a notice and a close, relays nothing, and the user
    stays in the room with a nil connection. *)
Theorem rest_join_blocks_websocket w roomID userID c inbound :
  (JoinRoomHandler roomID userID w).1 = Ok StatusOK →
  ∃ room1 notice err,
    Rooms (svc (JoinRoomHandler roomID userID w).2) !! roomID = Some room1 ∧
    Users room1 !! userID = Some (mkUser userID None) ∧
    defaultHandler roomID userID c inbound (JoinRoomHandler roomID userID w).2
      = (Ok (),
         mkWorld (svc (JoinRoomHandler roomID userID w).2)
           (wire (JoinRoomHandler roomID userID w).2
              ++ [Wrote c TextMessage notice err; Closed c])).
Proof.
  rw /JoinRoomHandler.
  case_decide as Hr; [by intros Hs; vm_compute in Hs|].
  case_decide as Hu; [by intros Hs; vm_compute in Hs|].
  rw /catch /JoinRoom.
  destruct (Rooms (svc w) !! roomID) as [room|] eqn:Hroom; last first.
  { case_decide; by intros Hs; vm_compute in Hs. }
  destruct (Users room !! userID) as [user|] eqn:Huser.
  { case_decide; by intros Hs; vm_compute in Hs. }
  intros _. proj_simpl.
  set (w1 := mkWorld _ (wire w)).
  assert (state_of w1 roomID userID = JOINED) as Hjoined.
  { rw /w1 state_of_insert decide_True //. proj_simpl. by rw lookup_insert_eq. }
  destruct (notice_events c
              (list_byte_of_string
                 ("Error joining room: "
                    +:+ Error (ParticipantAlreadyInRoom userID roomID))) w1)
    as (err & Hnotice).
  eexists _, _, err. split_and!.
  - rw /w1. proj_simpl. by rw lookup_insert_eq.
  - proj_simpl. by rw lookup_insert_eq.
  - rw /defaultHandler decide_False; [|by intros [?|?]].
    by rw {1}/catch (JoinRoom_JOINED w1 roomID userID (Some c) Hjoined) Hnotice.
Qed.

End SessionDeliveries.

(** ** Properties of the per-user connection sets *)

Section ClientsProperties.

Context {N : Network}.

Variable rangeClients : gmap string (gset Conn) → list (string * gset Conn).
Variable rangeSet : gset Conn → list Conn.
Variable joinedNotice : string → Conn → list byte.

(** [range] visits every entry of the table, and every connection of a
    set, exactly once. *)
Hypothesis rangeClients_perm : ∀ clients, rangeClients clients ≡ₚ map_to_list clients.
Hypothesis rangeSet_perm : ∀ set, rangeSet set ≡ₚ elements set.

Lemma difference_union_fresh (conn : Conn) (set : gset Conn) :
  conn ∉ set → ({[conn]} ∪ set) ∖ {[conn]} = set.
Proof.
  intros Hfresh. apply set_eq. intros c.
  rw elem_of_difference elem_of_union elem_of_singleton. split.
  - by intros [[->|Hc] Hne].
  - intros Hc. split; [by right|]. by intros ->.
Qed.

Lemma elem_of_union_singleton (conn : Conn) (set : gset Conn) :
  conn ∈ {[conn]} ∪ set.
Proof. apply elem_of_union_l. by apply elem_of_singleton. Qed.

Lemma not_elem_of_difference_singleton (conn : Conn) (set : gset Conn) :
  conn ∉ set ∖ {[conn]}.
Proof.
  rw elem_of_difference elem_of_singleton. by intros [_ Hne].
Qed.

Lemma elem_of_range_set (c : Conn) (set : gset Conn) :
  c ∈ rangeSet set ↔ c ∈ set.
Proof. by rw rangeSet_perm elem_of_elements. Qed.

Lemma writeEach_spec message conns :
  ∀ w,
    ∃ outs : list (option string),
      length outs = length conns ∧
      writeEach conns message w
        = (Ok (),
           mkWorld (svc w)
             (wire w ++ zip_with (λ c, Wrote c TextMessage message) conns outs)).
Proof.
  induction conns as [|c conns IH]; intros w.
  - exists []. destruct w. by rw /= app_nil_r.
  - cbn [writeEach]. rw /catch /WriteMessage.
    destruct (IH (mkWorld (svc w)
                    (wire w ++ [Wrote c TextMessage message
                                  (transport (wire w) c TextMessage message)])))
      as (outs & Hlen & Hrest).
    exists (transport (wire w) c TextMessage message :: outs).
    split; [by rw /= Hlen|].
    destruct (transport (wire w) c TextMessage message);
      rw Hrest; proj_simpl; by rw -app_assoc.
Qed.

Lemma elem_of_writes message (conns : list Conn) :
  ∀ (outs : list (option string)) ev,
    ev ∈ zip_with (λ c, Wrote c TextMessage message) conns outs →
    ∃ c err, ev = Wrote c TextMessage message err ∧ c ∈ conns.
Proof.
  induction conns as [|c conns IH]; intros [|e outs] ev Hin;
    simpl in Hin; try by apply not_elem_of_nil in Hin.
  apply elem_of_cons in Hin as [->|Hin].
  - exists c, e. split; [done|apply list_elem_of_here].
  - destruct (IH _ _ Hin) as (c' & e' & -> & Hin').
    exists c', e'. split; [done|by apply list_elem_of_further].
Qed.

Lemma conn_written message (conns : list Conn) :
  ∀ (outs : list (option string)) c,
    length outs = length conns →
    c ∈ conns →
    ∃ err, Wrote c TextMessage message err
             ∈ zip_with (λ c, Wrote c TextMessage message) conns outs.
Proof.
  induction conns as [|c' conns IH]; intros [|e outs] c Hlen Hin;
    simplify_eq/=; try by apply not_elem_of_nil in Hin.
  apply elem_of_cons in Hin as [->|Hin].
  - exists e. apply list_elem_of_here.
  - destruct (IH outs c Hlen Hin) as [err Herr].
    exists err. by apply list_elem_of_further.
Qed.

(** X14 — [registerConn] and [unregisterConn] keep the table free of
    users with an empty set of connections; after [registerConn] the
    connection is one of the user's, after [unregisterConn] it is not, and
    neither touches another user; and on such a table, unregistering a
    connection that was just registered, and was not there before, gives
    back the table as it was. *)
Theorem registerConn_unregisterConn clients userID conn :
  (no_empty_set clients →
     no_empty_set (registerConn joinedNotice userID conn clients).1 ∧
     no_empty_set (unregisterConn userID conn clients)) ∧
  (∃ set, (registerConn joinedNotice userID conn clients).1 !! userID = Some set ∧
          conn ∈ set) ∧
  (∀ set, unregisterConn userID conn clients !! userID = Some set →
          conn ∉ set) ∧
  (∀ other, other ≠ userID →
     (registerConn joinedNotice userID conn clients).1 !! other
       = clients !! other ∧
     unregisterConn userID conn clients !! other = clients !! other) ∧
  (no_empty_set clients →
   conn ∉ default ∅ (clients !! userID) →
   unregisterConn userID conn
     (registerConn joinedNotice userID conn clients).1 = clients).
Proof.
  rw /registerConn /unregisterConn. cbn [fst]. split_and!.
  - intros Hinv. split.
    + intros u set Hu. destruct (decide (userID = u)) as [->|Hne].
      * rw lookup_insert_eq in Hu. simplify_eq. intros Hempty.
        apply (not_elem_of_empty (C := gset Conn) conn).
        rw -Hempty. apply elem_of_union_singleton.
      * rw lookup_insert_ne // in Hu. by eapply Hinv.
    + destruct (clients !! userID) as [set|] eqn:Hset; [|done].
      case_decide as Hsize.
      * intros u set' Hu. apply lookup_delete_Some in Hu as [_ Hu].
        by eapply Hinv.
      * intros u set' Hu. destruct (decide (userID = u)) as [->|Hne].
        -- rw lookup_insert_eq in Hu. simplify_eq. intros Hempty.
           apply Hsize. by rw Hempty size_empty.
        -- rw lookup_insert_ne // in Hu. by eapply Hinv.
  - eexists. rw lookup_insert_eq. split; [done|].
    apply elem_of_union_singleton.
  - intros set. destruct (clients !! userID) as [set0|] eqn:Hset; [|by rw Hset].
    case_decide.
    + by rw lookup_delete_eq.
    + rw lookup_insert_eq. intros [= <-].
      apply not_elem_of_difference_singleton.
  - intros other Hne. split; [by rw lookup_insert_ne|].
    destruct (clients !! userID) as [set0|]; [|done].
    case_decide; [by rw lookup_delete_ne|by rw lookup_insert_ne].
  - intros Hinv Hfresh. rw lookup_insert_eq.
    destruct (clients !! userID) as [set|] eqn:Hset;
      cbn [from_option id] in *.
    + rw (difference_union_fresh conn set Hfresh) decide_False.
      * rw insert_insert_eq. by apply insert_id.
      * intros Hsize%size_empty_iff. apply (Hinv userID set Hset).
        by apply leibniz_equiv.
    + rw (difference_union_fresh conn ∅ Hfresh).
      case_decide as Hsize; [|by rw size_empty in Hsize].
      rw delete_insert_eq. by apply delete_id.
Qed.

(** X15 — [SendToUser] fails with ["user ... not connected"], writing
    nothing, exactly when the user has no connection in the table;
    otherwise it writes the message, as a text frame, once to each of the
    user's connections and to no other, and returns nil whatever the
    writes return. *)
Theorem SendToUser_spec clients userID message w :
  (clients !! userID = None ∨ clients !! userID = Some ∅ →
     SendToUser rangeSet clients userID message w
       = (Some ("user " +:+ userID +:+ " not connected"), w)) ∧
  (∀ set, clients !! userID = Some set → set ≠ ∅ →
     ∃ evs,
       SendToUser rangeSet clients userID message w
         = (None, mkWorld (svc w) (wire w ++ evs)) ∧
       length evs = size set ∧
       (∀ ev, ev ∈ evs →
          ∃ c err, ev = Wrote c TextMessage message err ∧ c ∈ set) ∧
       (∀ c, c ∈ set → ∃ err, Wrote c TextMessage message err ∈ evs)).
Proof.
  rw /SendToUser. split.
  - intros [->| ->]; [done|].
    case_decide as Hsize; [done|by rw size_empty in Hsize].
  - intros set -> Hne. rw decide_False; last first.
    { intros Hsize%size_empty_iff. by apply Hne, leibniz_equiv. }
    destruct (writeEach_spec message (rangeSet set) w) as (outs & Hlen & ->).
    eexists. split; [done|]. split_and!.
    + rw length_zip_with Hlen Nat.min_id. by rw rangeSet_perm.
    + intros ev Hev.
      destruct (elem_of_writes _ _ _ _ Hev) as (c & err & -> & Hc).
      exists c, err. split; [done|]. by apply elem_of_range_set.
    + intros c Hc. apply conn_written; [done|]. by apply elem_of_range_set.
Qed.

Lemma broadcastClients_spec message entries :
  ∀ w,
    ∃ evs,
      broadcastClients rangeSet entries message w
        = (Ok (), mkWorld (svc w) (wire w ++ evs)) ∧
      (∀ ev, ev ∈ evs →
         ∃ uid set c err,
           ev = Wrote c TextMessage message err ∧
           (uid, set) ∈ entries ∧ c ∈ set) ∧
      (∀ uid set c,
         (uid, set) ∈ entries → c ∈ set →
         ∃ err, Wrote c TextMessage message err ∈ evs) ∧
      length evs = sum_list (size <$> entries.*2).
Proof.
  induction entries as [|[uid set] rest IH]; intros w.
  - exists []. split_and!.
    + destruct w. by rw /= app_nil_r.
    + intros ev Hev. by apply not_elem_of_nil in Hev.
    + intros uid set c Hin. by apply not_elem_of_nil in Hin.
    + done.
  - destruct (writeEach_spec message (rangeSet set) w) as (outs & Hlen & Hset).
    destruct (IH (mkWorld (svc w)
                    (wire w ++ zip_with (λ c, Wrote c TextMessage message)
                                 (rangeSet set) outs)))
      as (evs & Hrest & Honly & Hall & Hcount).
    eexists. split_and!.
    + cbn [broadcastClients]. rw /bind Hset Hrest. proj_simpl.
      by rw -app_assoc.
    + intros ev [Hev|Hev]%elem_of_app.
      * destruct (elem_of_writes _ _ _ _ Hev) as (c & err & -> & Hc).
        exists uid, set, c, err. split_and!; [done|apply list_elem_of_here|].
        by apply elem_of_range_set.
      * destruct (Honly ev Hev) as (uid' & set' & c & err & -> & Hin & Hc).
        exists uid', set', c, err.
        split_and!; [done|by apply list_elem_of_further|done].
    + intros uid' set' c [[= -> ->]|Hin]%elem_of_cons Hc.
      * destruct (conn_written message (rangeSet set) outs c Hlen) as [err Herr].
        { by apply elem_of_range_set. }
        exists err. apply elem_of_app. by left.
      * destruct (Hall uid' set' c Hin Hc) as [err Herr].
        exists err. apply elem_of_app. by right.
    + rw length_app Hcount length_zip_with Hlen Nat.min_id /=.
      by rw rangeSet_perm.
Qed.

(** X16 — A [Broadcast] taken on its own writes the message, as a text
    frame, to every connection of every user of the table and to no other
    connection, once per user holding it, and leaves the registry alone; a
    write that fails does not keep it from the remaining connections. *)
Theorem Broadcast_reaches_every_connection clients message w :
  ∃ evs,
    (Broadcast rangeClients rangeSet clients message w).2
      = mkWorld (svc w) (wire w ++ evs) ∧
    (∀ ev, ev ∈ evs →
       ∃ userID set c err,
         ev = Wrote c TextMessage message err ∧
         clients !! userID = Some set ∧ c ∈ set) ∧
    (∀ userID set c,
       clients !! userID = Some set → c ∈ set →
       ∃ err, Wrote c TextMessage message err ∈ evs) ∧
    length evs = sum_list (size <$> (map_to_list clients).*2).
Proof.
  rw /Broadcast.
  destruct (broadcastClients_spec message (rangeClients clients) w)
    as (evs & -> & Honly & Hall & Hcount).
  exists evs. split_and!; [done|..].
  - intros ev Hev.
    destruct (Honly ev Hev) as (u & set & c & err & -> & Hin & Hc).
    rw rangeClients_perm in Hin. apply elem_of_map_to_list in Hin.
    by exists u, set, c, err.
  - intros u set c Hu Hc. apply (Hall u set c); [|done].
    rw rangeClients_perm. by apply elem_of_map_to_list.
  - rw Hcount. by rw rangeClients_perm.
Qed.

End ClientsProperties.

(** ** Instances of the further properties *)

Lemma JoinRoom_then_LeaveRoom_witness :
  Rooms (svc world_r) !! "r" = Some (mkRoom "r" ∅) ∧
  state_of world_r "r" "p" = ABSENT ∧
  ∃ room1 w1,
    JoinRoom "r" "p" (Some 5) world_r = (Ok room1, w1) ∧
    LeaveRoom "r" "p" w1 = (Ok (), world_r).
Proof.
  split; [vm_compute; reflexivity|]. split; [vm_compute; reflexivity|].
  apply (JoinRoom_then_LeaveRoom_restores world_r "r" "p" (Some 5)
           (mkRoom "r" ∅)); vm_compute; reflexivity.
Defined.

Lemma rooms_are_never_removed_witness :
  Rooms (svc world_a) !! "r" = Some room_a ∧
  ∃ room',
    Rooms (svc (run (N := reliable)
                  [CallLeaveRoom "r" "a"; CallCreateRoom "r"] world_a)) !! "r"
      = Some room' ∧
    Room_ID room' = Room_ID room_a.
Proof.
  split; [vm_compute; reflexivity|].
  apply (rooms_are_never_removed (N := reliable)
           [CallLeaveRoom "r" "a"; CallCreateRoom "r"] world_a "r" room_a).
  vm_compute; reflexivity.
Defined.

Lemma same_participant_in_two_rooms_witness :
  "r1" ≠ "r2" ∧
  state_of world_two "r1" "p" = JOINED ∧
  Rooms (svc world_two) !! "r2" = Some (mkRoom "r2" ∅) ∧
  state_of world_two "r2" "p" = ABSENT ∧
  ∃ room w',
    JoinRoom "r2" "p" (Some 2) world_two = (Ok room, w') ∧
    state_of w' "r1" "p" = JOINED ∧
    state_of w' "r2" "p" = JOINED.
Proof.
  split; [discriminate|]. split; [vm_compute; reflexivity|].
  split; [vm_compute; reflexivity|]. split; [vm_compute; reflexivity|].
  apply (same_participant_in_two_rooms (N := reliable) world_two "r1" "r2" "p"
           (Some 2) (mkRoom "r2" ∅));
    [discriminate|vm_compute; reflexivity..].
Defined.

Lemma JoinRoomHandler_status_witness :
  "r" ≠ "" ∧ "p" ≠ "" ∧
  Rooms (svc world_r) !! "r" = Some (mkRoom "r" ∅) ∧
  state_of world_r "r" "p" = ABSENT ∧
  ∃ w', JoinRoomHandler "r" "p" world_r = (Ok StatusOK, w') ∧
        wire w' = wire world_r.
Proof.
  split; [discriminate|]. split; [discriminate|].
  split; [vm_compute; reflexivity|]. split; [vm_compute; reflexivity|].
  destruct (JoinRoomHandler_status world_r "r" "p") as [_ H].
  destruct H as (_ & _ & Hok); [discriminate|discriminate|].
  destruct (Hok (mkRoom "r" ∅)) as (w' & Hrun & Hwire & _);
    [vm_compute; reflexivity|vm_compute; reflexivity|].
  exists w'. split; [exact Hrun|exact Hwire].
Defined.

Lemma GetRoomHandler_witness :
  (∀ m, rangeUsers (Network := reliable) m ≡ₚ map_to_list m) ∧
  "r" ≠ "" ∧
  Rooms (svc world_abc) !! "r" = Some room_abc ∧
  ∃ userIDs,
    GetRoomHandler (N := reliable) "r" world_abc
      = (Ok (GetRoomResponse StatusOK "r" userIDs), world_abc) ∧
    NoDup userIDs ∧
    length userIDs = 3.
Proof.
  split; [exact reliable_visits_once|]. split; [discriminate|].
  split; [vm_compute; reflexivity|].
  destruct (GetRoomHandler_lists_participants (N := reliable)
              reliable_visits_once world_abc "r")
    as (resp & Hrun & _ & _ & _ & Hok).
  destruct (Hok ltac:(discriminate) room_abc)
    as (userIDs & Hresp & Hnodup & Hlen & _); [vm_compute; reflexivity|].
  exists userIDs. rw Hrun Hresp. split; [reflexivity|].
  split; [exact Hnodup|]. rw Hlen. vm_compute. reflexivity.
Defined.

Lemma CreateRoomHandler_witness :
  Rooms (svc fresh) !! "generated" = None ∧
  CreateRoomHandler "generated" UnprocessableEntity fresh
    = (Ok (CreateRoomResponse StatusCreated "generated" 0),
       mkWorld
         (mkRTCService
            (<["generated" := mkRoom "generated" ∅]> (Rooms (svc fresh))))
         (wire fresh)).
Proof.
  split; [reflexivity|].
  destruct (CreateRoomHandler_status fresh "generated" UnprocessableEntity)
    as [_ H].
  destruct (H "generated") as [Hnew _]; [right; split; [left|]; reflexivity|].
  apply Hnew. reflexivity.
Defined.

Lemma defaultHandler_restores_registry_witness :
  JoinRoom "r" "a" (Some 1) world_b
    = (Ok (mkRoom "r"
             (<["a" := mkUser "a" (Some 1)]> {["b" := mkUser "b" (Some 2)]})),
       (JoinRoom "r" "a" (Some 1) world_b).2) ∧
  svc (defer (λ w, (Panic (A := ()), w)) (LeaveRoom "r" "a")
         (JoinRoom "r" "a" (Some 1) world_b).2).2
    = svc world_b.
Proof.
  assert (JoinRoom "r" "a" (Some 1) world_b
            = (Ok (mkRoom "r"
                     (<["a" := mkUser "a" (Some 1)]>
                        {["b" := mkUser "b" (Some 2)]})),
               (JoinRoom "r" "a" (Some 1) world_b).2)) as Hjoin
    by (vm_compute; reflexivity).
  split; [exact Hjoin|].
  destruct (defaultHandler_restores_registry (N := reliable) world_b "r" "a" 1
              frames) as [_ Hdeferred].
  apply (Hdeferred _ _ (λ w, (Panic (A := ()), w)) Hjoin). reflexivity.
Defined.

Lemma defaultHandler_rejects_witness :
  state_of world_a "r" "a" = JOINED ∧
  ∃ notice err,
    defaultHandler (N := reliable) "r" "a" 9 frames world_a
      = (Ok (),
         mkWorld (svc world_a)
           (wire world_a ++ [Wrote 9 TextMessage notice err; Closed 9])).
Proof.
  split; [vm_compute; reflexivity|].
  apply (defaultHandler_rejects (N := reliable) world_a "r" "a" 9 frames).
  right; right; right. vm_compute. reflexivity.
Defined.



Lemma rest_join_blocks_websocket_witness :
  (JoinRoomHandler "r" "b" world_r).1 = Ok StatusOK ∧
  ∃ room1,
    Rooms (svc (JoinRoomHandler "r" "b" world_r).2) !! "r" = Some room1 ∧
    Users room1 !! "b" = Some (mkUser "b" None).
Proof.
  split; [vm_compute; reflexivity|].
  destruct (rest_join_blocks_websocket (N := reliable) world_r "r" "b" 4 frames)
    as (room1 & notice & err & Hroom1 & Huser & _); [vm_compute; reflexivity|].
  exists room1. split; [exact Hroom1|exact Huser].
Defined.

Lemma clients_a_no_empty_set : no_empty_set clients_a.
Proof.
  intros u set Hu. unfold clients_a in Hu.
  apply lookup_singleton_Some in Hu as [_ <-].
  intros Hempty. apply (not_elem_of_empty (C := gset Conn) 1).
  rw -Hempty. by apply elem_of_singleton.
Defined.

Lemma registerConn_unregisterConn_witness :
  no_empty_set clients_a ∧
  (7 ∉ default (∅ : gset Conn) (clients_a !! "a")) ∧
  unregisterConn "a" 7 (registerConn notice_of "a" 7 clients_a).1 = clients_a.
Proof.
  split; [exact clients_a_no_empty_set|].
  assert (7 ∉ default (∅ : gset Conn) (clients_a !! "a")) as Hfresh.
  { vm_compute. discriminate. }
  split; [exact Hfresh|].
  destruct (registerConn_unregisterConn notice_of clients_a "a" 7)
    as (_ & _ & _ & _ & Hround).
  apply Hround; [exact clients_a_no_empty_set|exact Hfresh].
Defined.

Lemma SendToUser_witness :
  (∀ set : gset Conn, elements set ≡ₚ elements set) ∧
  clients_a !! "a" = Some {[1]} ∧
  ({[1]} : gset Conn) ≠ ∅ ∧
  ∃ evs,
    SendToUser (N := broken_2) elements clients_a "a" hello fresh
      = (None, mkWorld (svc fresh) (wire fresh ++ evs)) ∧
    length evs = size ({[1]} : gset Conn).
Proof.
  assert (({[1]} : gset Conn) ≠ ∅) as Hne.
  { intros Hempty. apply (not_elem_of_empty (C := gset Conn) 1).
    rw -Hempty. by apply elem_of_singleton. }
  split; [reflexivity|]. split; [vm_compute; reflexivity|].
  split; [exact Hne|].
  destruct (SendToUser_spec (N := broken_2) elements (λ set, reflexivity _)
              clients_a "a" hello fresh) as [_ Hsend].
  destruct (Hsend {[1]}) as (evs & Hrun & Hlen & _);
    [vm_compute; reflexivity|exact Hne|].
  exists evs. split; [exact Hrun|exact Hlen].
Defined.

Lemma Broadcast_witness :
  (∀ clients : gmap string (gset Conn),
     map_to_list clients ≡ₚ map_to_list clients) ∧
  (∀ set : gset Conn, elements set ≡ₚ elements set) ∧
  ∃ evs,
    (Broadcast (N := reliable) map_to_list elements clients_a hello fresh).2
      = mkWorld (svc fresh) (wire fresh ++ evs) ∧
    ∃ err, Wrote 1 TextMessage hello err ∈ evs.
Proof.
  split; [reflexivity|]. split; [reflexivity|].
  destruct (Broadcast_reaches_every_connection (N := reliable)
              map_to_list elements (λ clients, reflexivity _)
              (λ set, reflexivity _) clients_a hello fresh)
    as (evs & Hrun & _ & Hall & _).
  exists evs. split; [exact Hrun|].
  apply (Hall "a" {[1]} 1); [vm_compute; reflexivity|].
  by apply elem_of_singleton.
Defined.
